(** * ArmorCaptcha: the hCaptcha challenge driver of
      [src/services/utils/armor/anti_hcaptcha/core.py]

    A shallow embedding of the class [ArmorCaptcha] and of the Python string
    and dictionary operations it relies on, followed by the properties of its
    methods.  Python [str] values are sequences of Unicode code points, a
    [dict] is an insertion-ordered association list, exceptions are explicit
    results, and the browser driver, the file system and the recognizers are
    records of scripted behaviours. *)

From Stdlib Require Import List String Ascii Bool Arith NArith ZArith Lia.
From Stdlib Require DecimalPos.
Import ListNotations.

Set Implicit Arguments.

(* ===================================================================== *)
(** ** Python strings *)
(* ===================================================================== *)

Module PyStr.

(** A Python [str] is a sequence of code points. *)
Definition str := list N.

Fixpoint bytes_of (s : string) : list N :=
  match s with
  | EmptyString => []
  | String a t => N_of_ascii a :: bytes_of t
  end.

(** UTF-8 decoding of the source text of a literal: [need] continuation
    bytes are still expected and [acc] holds the bits read so far. *)
Fixpoint utf8_go (need : nat) (acc : N) (bs : list N) : str :=
  match bs with
  | [] => []
  | b :: t =>
      match need with
      | O =>
          if (b <? 128)%N then b :: utf8_go 0 0%N t
          else if (b <? 224)%N then utf8_go 1 (b mod 32)%N t
          else if (b <? 240)%N then utf8_go 2 (b mod 16)%N t
          else utf8_go 3 (b mod 8)%N t
      | S O => (acc * 64 + b mod 64)%N :: utf8_go 0 0%N t
      | S k => utf8_go k (acc * 64 + b mod 64)%N t
      end
  end.

(** [py "..."] is the Python literal with that source text. *)
Definition py (s : string) : str := utf8_go 0 0%N (bytes_of s).
Arguments py s%_string.

Fixpoint eqb (a b : str) : bool :=
  match a, b with
  | [], [] => true
  | x :: a', y :: b' => (x =? y)%N && eqb a' b'
  | _, _ => false
  end.

(** [s.startswith(p)] *)
Fixpoint startswith (p s : str) : bool :=
  match p, s with
  | [], _ => true
  | x :: p', y :: s' => (x =? y)%N && startswith p' s'
  | _ :: _, [] => false
  end.

(** [s.endswith(p)] *)
Definition endswith (p s : str) : bool := startswith (rev p) (rev s).

(** [sub in s] *)
Fixpoint contains (sub s : str) : bool :=
  startswith sub s ||
  match s with
  | [] => false
  | _ :: t => contains sub t
  end.

(** Prepend a character to the first piece of a split. *)
Definition cons_head (c : N) (ps : list str) : list str :=
  match ps with
  | p :: ps' => (c :: p) :: ps'
  | [] => [[c]]
  end.

(** [re.split(r"[...]", s)] for a character class: every character of the
    class is a separator, adjacent separators give empty pieces. *)
Fixpoint re_split_class (cls : N -> bool) (s : str) : list str :=
  match s with
  | [] => [[]]
  | c :: t =>
      if cls c then [] :: re_split_class cls t
      else cons_head c (re_split_class cls t)
  end.

Definition in_class (chars : str) (c : N) : bool :=
  existsb (N.eqb c) chars.

(** [re.split(pat, s)] for a pattern without metacharacters (a non-empty
    literal): leftmost non-overlapping occurrences separate the pieces.
    [skip] counts the characters of a match still to be passed over. *)
Fixpoint re_split_lit_go (pat : str) (skip : nat) (s : str) : list str :=
  match s with
  | [] => [[]]
  | c :: t =>
      match skip with
      | S k => re_split_lit_go pat k t
      | O =>
          if startswith pat s
          then [] :: re_split_lit_go pat (List.length pat - 1) t
          else cons_head c (re_split_lit_go pat 0 t)
      end
  end.

Definition re_split_lit (pat s : str) : list str := re_split_lit_go pat 0 s.

(** [s.replace(old, new)]: leftmost non-overlapping occurrences; an empty
    [old] inserts [new] before every character and at the end. *)
Fixpoint replace_go (old new : str) (skip : nat) (s : str) : str :=
  match s with
  | [] => []
  | c :: t =>
      match skip with
      | S k => replace_go old new k t
      | O =>
          if startswith old s
          then new ++ replace_go old new (List.length old - 1) t
          else c :: replace_go old new 0 t
      end
  end.

Definition replace (old new s : str) : str :=
  match old with
  | [] => new ++ flat_map (fun c => c :: new) s
  | _ :: _ => replace_go old new 0 s
  end.

(** The characters [str.strip()] removes: Unicode white space. *)
Definition isspace (c : N) : bool :=
  ((9 <=? c) && (c <=? 13) || (28 <=? c) && (c <=? 32)
   || (c =? 133) || (c =? 160) || (c =? 5760)
   || (8192 <=? c) && (c <=? 8202)
   || (c =? 8232) || (c =? 8233) || (c =? 8239) || (c =? 8287)
   || (c =? 12288))%N.

Fixpoint dropwhile (p : N -> bool) (s : str) : str :=
  match s with
  | [] => []
  | c :: t => if p c then dropwhile p t else s
  end.

Definition lstrip (p : N -> bool) (s : str) : str := dropwhile p s.
Definition rstrip (p : N -> bool) (s : str) : str := rev (dropwhile p (rev s)).
(** [s.strip()] *)
Definition strip (s : str) : str := rstrip isspace (lstrip isspace s).

(** [s[1:]] and [s[:-1]] *)
Definition slice_from_1 (s : str) : str := tl s.
Definition slice_to_last (s : str) : str := removelast s.

(** Decimal digits of an integer, as [str(n)] prints them. *)
Fixpoint digits (u : Decimal.uint) : str :=
  match u with
  | Decimal.Nil => []
  | Decimal.D0 u => 48%N :: digits u
  | Decimal.D1 u => 49%N :: digits u
  | Decimal.D2 u => 50%N :: digits u
  | Decimal.D3 u => 51%N :: digits u
  | Decimal.D4 u => 52%N :: digits u
  | Decimal.D5 u => 53%N :: digits u
  | Decimal.D6 u => 54%N :: digits u
  | Decimal.D7 u => 55%N :: digits u
  | Decimal.D8 u => 56%N :: digits u
  | Decimal.D9 u => 57%N :: digits u
  end.

Definition of_int (z : Z) : str :=
  match Z.to_int z with
  | Decimal.Pos u => digits u
  | Decimal.Neg u => 45%N :: digits u
  end.

(** Truth value of a string: the empty string is false. *)
Definition truthy (s : str) : bool :=
  match s with [] => false | _ :: _ => true end.

End PyStr.

Import PyStr.

(* ===================================================================== *)
(** ** Exceptions and results *)
(* ===================================================================== *)

(** The exception classes the driver meets: Python's built-ins, Selenium's
    [selenium.common.exceptions], [requests]' base class and the three
    classes imported from [.exceptions]. *)
Inductive exn : Type :=
| BaseException
| KeyboardInterrupt
| Exception
| AttributeError
| TypeError
| LookupError
| IndexError
| KeyError
| OSError
| RequestException
| WebDriverException
| TimeoutException
| ElementClickInterceptedException
| StaleElementReferenceException
| NoSuchElementException
| InvalidElementStateException
| ElementNotVisibleException
| ChallengeReset
| LabelNotFoundException
| SubmitException.

(** The direct base class. *)
Definition parent (e : exn) : option exn :=
  match e with
  | BaseException => None
  | KeyboardInterrupt => Some BaseException
  | Exception => Some BaseException
  | AttributeError | TypeError | LookupError | OSError => Some Exception
  | IndexError | KeyError => Some LookupError
  | RequestException => Some OSError
  | WebDriverException => Some Exception
  | TimeoutException | ElementClickInterceptedException
  | StaleElementReferenceException | NoSuchElementException
  | InvalidElementStateException => Some WebDriverException
  | ElementNotVisibleException => Some InvalidElementStateException
  | ChallengeReset | LabelNotFoundException | SubmitException => Some Exception
  end.

Definition exn_eqb (a b : exn) : bool :=
  match a, b with
  | BaseException, BaseException | KeyboardInterrupt, KeyboardInterrupt
  | Exception, Exception | AttributeError, AttributeError
  | TypeError, TypeError | LookupError, LookupError
  | IndexError, IndexError | KeyError, KeyError | OSError, OSError
  | RequestException, RequestException
  | WebDriverException, WebDriverException
  | TimeoutException, TimeoutException
  | ElementClickInterceptedException, ElementClickInterceptedException
  | StaleElementReferenceException, StaleElementReferenceException
  | NoSuchElementException, NoSuchElementException
  | InvalidElementStateException, InvalidElementStateException
  | ElementNotVisibleException, ElementNotVisibleException
  | ChallengeReset, ChallengeReset
  | LabelNotFoundException, LabelNotFoundException
  | SubmitException, SubmitException => true
  | _, _ => false
  end.

(** [isinstance(e, cls)], which is what an [except cls:] clause tests. The
    hierarchy is at most four classes deep. *)
Fixpoint isinstance_fuel (n : nat) (e cls : exn) : bool :=
  exn_eqb e cls ||
  match n with
  | O => false
  | S k => match parent e with
           | Some p => isinstance_fuel k p cls
           | None => false
           end
  end.

Definition isinstance (e cls : exn) : bool := isinstance_fuel 4 e cls.

(** What evaluating a Python expression gives: a value or a raised
    exception. *)
Inductive result (A : Type) : Type :=
| Ok (a : A)
| Raise (e : exn).
Arguments Ok {A} a.
Arguments Raise {A} e.

(** File contents and HTTP bodies. *)
Definition bytes := list Byte.byte.

(* ===================================================================== *)
(** ** Python dictionaries *)
(* ===================================================================== *)

Module Dict.
Section Dict.
Variables K V : Type.
Variable keq : K -> K -> bool.

(** Insertion-ordered, one entry per key. *)
Definition t := list (K * V).

(** [d.get(k)] *)
Fixpoint get (d : t) (k : K) : option V :=
  match d with
  | [] => None
  | (k', v) :: r => if keq k' k then Some v else get r k
  end.

(** [d[k] = v]: an existing key keeps its place, a new one goes last. *)
Fixpoint set (d : t) (k : K) (v : V) : t :=
  match d with
  | [] => [(k, v)]
  | (k', v') :: r => if keq k' k then (k', v) :: r else (k', v') :: set r k v
  end.

(** [d.update(e)] *)
Definition update (d e : t) : t :=
  fold_left (fun acc kv => set acc (fst kv) (snd kv)) e d.

(** [d.keys()] *)
Definition keys (d : t) : list K := map fst d.

(** [k in d] *)
Definition mem (d : t) (k : K) : bool :=
  match get d k with Some _ => true | None => false end.
End Dict.
End Dict.

Definition okey := option str.

Definition okey_eqb (a b : okey) : bool :=
  match a, b with
  | None, None => true
  | Some x, Some y => PyStr.eqb x y
  | _, _ => false
  end.

(** [str(k)] inside an f-string: [None] prints as the word. *)
Definition okey_str (k : okey) : str :=
  match k with
  | Some s => s
  | None => py "None"
  end.

(** [d.get(k)] on a dictionary whose keys are strings, for a [k] that may be
    [None]: no string equals [None]. *)
Definition get_opt (V : Type) (d : Dict.t str V) (k : option str) : option V :=
  match k with
  | Some s => Dict.get PyStr.eqb d s
  | None => None
  end.

(* ===================================================================== *)
(** ** [os.path] on a POSIX host *)
(* ===================================================================== *)

Module PosixPath.

Definition sep : N := 47%N.
Definition is_sep (c : N) : bool := (c =? sep)%N.

(** [os.path.join(a, b)] *)
Definition join (a b : str) : str :=
  if startswith [sep] b then b
  else if negb (truthy a) || endswith [sep] a then a ++ b
  else a ++ sep :: b.

(** [os.path.dirname(p)]: the text up to the last separator, without
    trailing separators unless it consists of separators only. *)
Definition dirname (p : str) : str :=
  let head := List.rev (dropwhile (fun c => negb (is_sep c)) (List.rev p)) in
  if truthy head && negb (forallb is_sep head)
  then rstrip is_sep head
  else head.

End PosixPath.

(* ===================================================================== *)
(** ** The collaborators: browser driver, recognizers, operating system *)
(* ===================================================================== *)

(** An object asked for a screenshot.  A method that the object does not
    have is [None] (looking it up raises [AttributeError]); one that it has
    may still raise when called. *)
Record Shooter : Type := {
  m_screenshot : option (str -> result unit);
  m_save_screenshot : option (str -> result unit)
}.

(** A located DOM element. *)
Record Element : Type := {
  el_shooter : Shooter;
  el_text : result str;
  el_click : result unit
}.

(** A tile, [//div[@class='task-image']]: its [aria-label], what the
    [n]-th read of the inner image's [style] attribute gives (the DOM may
    still be rendering), and what clicking it does. *)
Record Sample : Type := {
  sample_id : N;
  aria_label : option str;
  style_read : nat -> result (option str);
  sample_click : result unit
}.

(** What polling a condition of [expected_conditions] gives over time:
    [Never], a false value at every poll; [At t a], a false value before time
    [t] and the value [a] from then on; [Broken e], the exception [e] at
    every poll. *)
Inductive readiness (A : Type) : Type :=
| Never
| At (t : N) (a : A)
| Broken (e : exn).
Arguments Never {A}.
Arguments At {A} t a.
Arguments Broken {A} e.

(** Python's truth test on the values the conditions return: [until] goes
    on polling while the value is false. *)
Class Truth (A : Type) : Type := truth : A -> bool.

(** A located element is a true object. *)
#[global] Instance Truth_Element : Truth Element := fun _ => true.

(** A list is true when it is not empty. *)
#[global] Instance Truth_list (A : Type) : Truth (list A) :=
  fun l => match l with [] => false | _ :: _ => true end.

(** The value [True] of a condition that answers by yes or no. *)
#[global] Instance Truth_unit : Truth unit := fun _ => true.

(** The exceptions every [WebDriverWait] ignores. *)
Definition IGNORED_EXCEPTIONS : list exn := [NoSuchElementException].

(** Whether [until] catches [e]: it is an instance of a class that the
    wait ignores by default or was told to ignore. *)
Definition ignored (ignored_exceptions : list exn) (e : exn) : bool :=
  existsb (isinstance e) (IGNORED_EXCEPTIONS ++ ignored_exceptions).

(** [WebDriverWait(ctx, timeout, ignored_exceptions=...).until(condition)]:
    the first true value of the condition, when one comes in time.  A false
    value and an ignored exception both make [until] poll again, so that
    they end in [TimeoutException]; any other exception of the condition
    leaves [until] at once.  [ignored_exceptions] is the list of the
    classes passed to the constructor, empty when the argument is left
    out. *)
Definition WebDriverWait_until (A : Type) `{Truth A} (timeout : N)
    (ignored_exceptions : list exn) (r : readiness A) : result A :=
  match r with
  | Never => Raise TimeoutException
  | At t a =>
      if (t <=? timeout)%N && truth a then Ok a else Raise TimeoutException
  | Broken e =>
      if ignored ignored_exceptions e then Raise TimeoutException
      else Raise e
  end.

(** The browser session [ctx]. *)
Record Chrome : Type := {
  chrome_shooter : Shooter;
  presence_of_element_located : str -> readiness Element;
  presence_of_all_elements_located : str -> readiness (list Sample);
  element_to_be_clickable : str -> readiness Element;
  find_element : str -> result Element;
  find_elements : str -> result (list Sample);
  current_url : result str
}.

(** A recognizer as [challenge] uses it: the [flag] attribute, the
    [solution] method, and its truth value as an object. *)
Record Model : Type := {
  flag : str;
  model_truthy : bool;
  solution : bytes -> str -> result bool
}.

(** The classes of [sk_recognition]. *)
Inductive SkClass : Type :=
| VerticalRiverRecognition
| LeftPlaneRecognition
| RightPlaneRecognition.

(** What [switch_solution] returns: a registered ONNX model, a freshly
    built [sk_recognition] instance, or the YOLO model. *)
Inductive Solution : Type :=
| OnnxModel (m : Model)
| SkImage (c : SkClass) (path_rainbow : option str)
| YoloModel (m : Model).

(** Clock, file system and HTTP client. *)
Record OS : Type := {
  now : Z;
  path_exists : str -> bool;
  mkdir : str -> option exn;
  makedirs : str -> option exn;
  http_get : str -> result bytes;
  write_file : str -> bytes -> option exn;
  read_file : str -> result bytes
}.

(** What the methods do to the outside, in order. *)
Inductive event : Type :=
| EvWait (timeout : N) (xpath : str)
| EvFindElement (xpath : str)
| EvFindElements (xpath : str)
| EvStyleRead (id : N) (attempt : nat)
| EvCurrentUrl
| EvScreenshot (path : str)
| EvSaveScreenshot (path : str)
| EvMakedirs (path : str)
| EvMkdir (path : str)
| EvFetch (url : str)
| EvWriteFile (path : str) (data : bytes)
| EvReadFile (path : str)
| EvClassify (flag : str) (data : bytes) (label : str)
| EvClick (id : N)
| EvSubmitClick
| EvLoggerWarning (e : exn)
| EvLoggerException (e : exn)
| EvLog (message : str).

(* ===================================================================== *)
(** ** The class [ArmorCaptcha] *)
(* ===================================================================== *)

Record ArmorCaptcha : Type := {
  label_alias : Dict.t str str;
  debug : bool;
  dir_model : option str;
  screenshot : bool;
  path_objects_yaml : option str;
  path_rainbow_yaml : option str;
  runtime_workspace : str;
  path_screenshot : str;
  alias2locator : Dict.t okey Sample;
  alias2url : Dict.t okey str;
  alias2path : Dict.t okey str;
  alias2answer : Dict.t okey bool;
  label : str;
  prompt : str;
  dir_workspace : str;
  critical_threshold : N;
  pluggable_onnx_models : Dict.t str Model;
  yolo_model : Model
}.

Definition set_label (s : ArmorCaptcha) (v : str) : ArmorCaptcha :=
  {| label_alias := label_alias s; debug := debug s; dir_model := dir_model s;
     screenshot := screenshot s; path_objects_yaml := path_objects_yaml s;
     path_rainbow_yaml := path_rainbow_yaml s;
     runtime_workspace := runtime_workspace s;
     path_screenshot := path_screenshot s;
     alias2locator := alias2locator s; alias2url := alias2url s;
     alias2path := alias2path s; alias2answer := alias2answer s;
     label := v; prompt := prompt s; dir_workspace := dir_workspace s;
     critical_threshold := critical_threshold s;
     pluggable_onnx_models := pluggable_onnx_models s;
     yolo_model := yolo_model s |}.

Definition set_prompt (s : ArmorCaptcha) (v : str) : ArmorCaptcha :=
  {| label_alias := label_alias s; debug := debug s; dir_model := dir_model s;
     screenshot := screenshot s; path_objects_yaml := path_objects_yaml s;
     path_rainbow_yaml := path_rainbow_yaml s;
     runtime_workspace := runtime_workspace s;
     path_screenshot := path_screenshot s;
     alias2locator := alias2locator s; alias2url := alias2url s;
     alias2path := alias2path s; alias2answer := alias2answer s;
     label := label s; prompt := v; dir_workspace := dir_workspace s;
     critical_threshold := critical_threshold s;
     pluggable_onnx_models := pluggable_onnx_models s;
     yolo_model := yolo_model s |}.

Definition set_path_screenshot (s : ArmorCaptcha) (v : str) : ArmorCaptcha :=
  {| label_alias := label_alias s; debug := debug s; dir_model := dir_model s;
     screenshot := screenshot s; path_objects_yaml := path_objects_yaml s;
     path_rainbow_yaml := path_rainbow_yaml s;
     runtime_workspace := runtime_workspace s;
     path_screenshot := v;
     alias2locator := alias2locator s; alias2url := alias2url s;
     alias2path := alias2path s; alias2answer := alias2answer s;
     label := label s; prompt := prompt s; dir_workspace := dir_workspace s;
     critical_threshold := critical_threshold s;
     pluggable_onnx_models := pluggable_onnx_models s;
     yolo_model := yolo_model s |}.

Definition set_alias2locator (s : ArmorCaptcha) (v : Dict.t okey Sample)
  : ArmorCaptcha :=
  {| label_alias := label_alias s; debug := debug s; dir_model := dir_model s;
     screenshot := screenshot s; path_objects_yaml := path_objects_yaml s;
     path_rainbow_yaml := path_rainbow_yaml s;
     runtime_workspace := runtime_workspace s;
     path_screenshot := path_screenshot s;
     alias2locator := v; alias2url := alias2url s;
     alias2path := alias2path s; alias2answer := alias2answer s;
     label := label s; prompt := prompt s; dir_workspace := dir_workspace s;
     critical_threshold := critical_threshold s;
     pluggable_onnx_models := pluggable_onnx_models s;
     yolo_model := yolo_model s |}.

Definition set_alias2url (s : ArmorCaptcha) (v : Dict.t okey str)
  : ArmorCaptcha :=
  {| label_alias := label_alias s; debug := debug s; dir_model := dir_model s;
     screenshot := screenshot s; path_objects_yaml := path_objects_yaml s;
     path_rainbow_yaml := path_rainbow_yaml s;
     runtime_workspace := runtime_workspace s;
     path_screenshot := path_screenshot s;
     alias2locator := alias2locator s; alias2url := v;
     alias2path := alias2path s; alias2answer := alias2answer s;
     label := label s; prompt := prompt s; dir_workspace := dir_workspace s;
     critical_threshold := critical_threshold s;
     pluggable_onnx_models := pluggable_onnx_models s;
     yolo_model := yolo_model s |}.

(** The class attribute [label_alias] as the source text has it. *)
Definition label_alias_static : Dict.t str str :=
  [ (py "自行车", py "bicycle");
    (py "火车", py "train");
    (py "卡车", py "truck");
    (py "公交车", py "bus");
    (py "巴士", py "bus");
    (py "飞机", py "airplane");
    (py "一条船", py "boat");
    (py "船", py "boat");
    (py "摩托车", py "motorcycle");
    (py "垂直河流", py "vertical river");
    (py "天空中向左飞行的飞机", py "airplane in the sky flying left");
    (py "请选择天空中所有向右飞行的飞机",
     py "airplanes in the sky that are flying to the right");
    (py "汽车", py "car");
    (py "大象", py "elephant");
    (py "鸟", py "bird");
    (py "狗", py "dog") ].

(** The class attribute [BAD_CODE]: look-alike code points and what they
    stand for.  Keys, in order: U+0430, U+0435, U+0065, U+0069, U+0456,
    U+03BF, U+0441, U+0501, U+0455, U+04BB, U+30FC, U+571F. *)
Definition BAD_CODE : Dict.t str str :=
  [ (py "а", py "a");
    (py "е", py "e");
    (py "e", py "e");
    (py "i", py "i");
    (py "і", py "i");
    (py "ο", py "o");
    (py "с", py "c");
    (py "ԁ", py "d");
    (py "ѕ", py "s");
    (py "һ", py "h");
    (py "ー", py "一");
    (py "土", py "士") ].

Definition CHALLENGE_SUCCESS : str := py "success".
Definition CHALLENGE_CONTINUE : str := py "continue".
Definition CHALLENGE_CRASH : str := py "crash".
Definition CHALLENGE_RETRY : str := py "retry".
Definition CHALLENGE_REFRESH : str := py "refresh".
Definition CHALLENGE_BACKCALL : str := py "backcall".

(** [__init__]: the recognizer package is not part of this file, so what
    it hands over is taken as arguments: the localized vocabulary
    [pom_handler.label_alias["zh"]], the models [pom_handler.overload(...)]
    returns and the [yolo.YOLO] instance.

    [label_alias] is an attribute of the class, and no instance gets one
    of its own: [self.label_alias.update(...)] changes the dictionary of
    the class in place, and every instance reads that one dictionary.
    [cls_label_alias] is the dictionary as the class holds it when
    [__init__] runs, [label_alias_static] for the first instance of a
    process; the field [label_alias] of the result is the dictionary
    afterwards, which is what the class holds from then on and what the
    next [__init__] starts from.  No other method writes to it, so during
    a call of a method the field is the dictionary of the class. *)
Definition init (cls_label_alias : Dict.t str str)
    (dir_workspace_ : option str) (debug_ : bool)
    (dir_model_ : option str) (screenshot_ : bool)
    (path_objects_yaml_ path_rainbow_yaml_ : option str)
    (pom_label_alias_zh : Dict.t str str)
    (overloaded : Dict.t str Model) (yolo : Model) : ArmorCaptcha :=
  {| label_alias := Dict.update PyStr.eqb cls_label_alias pom_label_alias_zh;
     debug := debug_; dir_model := dir_model_; screenshot := screenshot_;
     path_objects_yaml := path_objects_yaml_;
     path_rainbow_yaml := path_rainbow_yaml_;
     runtime_workspace := []; path_screenshot := [];
     alias2locator := []; alias2url := []; alias2path := [];
     alias2answer := [];
     label := []; prompt := [];
     dir_workspace := match dir_workspace_ with
                      | Some d => if truthy d then d else py "."
                      | None => py "."
                      end;
     critical_threshold := 3%N;
     pluggable_onnx_models := overloaded;
     yolo_model := yolo |}.

(* ===================================================================== *)
(** ** Methods run on an instance and leave a trace *)
(* ===================================================================== *)

Record World : Type := {
  self : ArmorCaptcha;
  trace : list event
}.

(** A method body: from the world before to its outcome and the world
    after. *)
Definition M (A : Type) : Type := World -> result A * World.

Definition ret (A : Type) (a : A) : M A := fun w => (Ok a, w).

Definition raise (A : Type) (e : exn) : M A := fun w => (Raise e, w).
Arguments raise {A} e.

Definition bind (A B : Type) (m : M A) (k : A -> M B) : M B :=
  fun w =>
    match m w with
    | (Ok a, w') => k a w'
    | (Raise e, w') => (Raise e, w')
    end.

Declare Scope py_scope.
Delimit Scope py_scope with py.
Notation "x <- m ;; k" := (bind m (fun x => k))
  (at level 61, m at next level, right associativity) : py_scope.
Notation "m ;; k" := (bind m (fun _ => k))
  (at level 61, right associativity) : py_scope.
Local Open Scope py_scope.

Definition lift (A : Type) (r : result A) : M A := fun w => (r, w).

Definition emit (ev : event) : M unit :=
  fun w => (Ok tt, {| self := self w; trace := trace w ++ [ev] |}).

Definition get_self : M ArmorCaptcha := fun w => (Ok (self w), w).

Definition modify_self (f : ArmorCaptcha -> ArmorCaptcha) : M unit :=
  fun w => (Ok tt, {| self := f (self w); trace := trace w |}).

(** A call that may fail without a result, such as [os.mkdir]. *)
Definition check (r : option exn) : M unit :=
  match r with
  | Some e => raise e
  | None => ret tt
  end.

(** [try: body / except ...: handler]: [handler e] is the clause that
    catches [e], if one does. *)
Definition try_except (A : Type) (body : M A) (handler : exn -> option (M A))
  : M A :=
  fun w =>
    match body w with
    | (Ok a, w') => (Ok a, w')
    | (Raise e, w') =>
        match handler e with
        | Some h => h w'
        | None => (Raise e, w')
        end
    end.

(** [try: body / except ...: handler / else: els]: the [else] clause runs
    when the body raised nothing, outside the reach of the handlers. *)
Definition try_except_else (A B : Type) (body : M A)
    (handler : exn -> option (M B)) (els : A -> M B) : M B :=
  fun w =>
    match body w with
    | (Ok a, w') => els a w'
    | (Raise e, w') =>
        match handler e with
        | Some h => h w'
        | None => (Raise e, w')
        end
    end.

(** [try: body / finally: fin] where [fin] ends in [return]: whatever the
    body did, its exception included, is dropped once [fin] returns; an
    exception raised by [fin] itself goes out. *)
Definition finally_return (A B : Type) (body : M A) (fin : M B) : M B :=
  fun w => fin (snd (body w)).

(** [for x in xs: body] *)
Fixpoint for_each (A : Type) (xs : list A) (body : A -> M unit) : M unit :=
  match xs with
  | [] => ret tt
  | x :: r => body x ;; for_each r body
  end.

(** [self.log(message, **params)]: nothing unless [debug] is set.  Of the
    formatted line only the fixed text of the message is kept; the
    parameters and the elapsed time of the last message of [challenge] are
    left out. *)
Definition log (message : str) : M unit :=
  s <- get_self ;;
  if debug s then emit (EvLog message) else ret tt.

(** Calling [obj.method(path)]. *)
Definition call_method (ev : str -> event)
    (m : option (str -> result unit)) (path : str) : M unit :=
  match m with
  | None => raise AttributeError
  | Some f => emit (ev path) ;; lift (f path)
  end.

(** [_init_workspace] *)
Definition _init_workspace (os : OS) : M str :=
  s <- get_self ;;
  let _prefix :=
    if truthy (label s) then of_int (now os) ++ py "_" ++ label s else [] in
  let _workspace := PosixPath.join (dir_workspace s) _prefix in
  (if negb (path_exists os _workspace)
   then emit (EvMkdir _workspace) ;; check (mkdir os _workspace)
   else ret tt) ;;
  ret _workspace.

(** The directory and the file [captcha_screenshot] writes to:
    [_out_dir] and [_out_path] of the source. *)
Definition captcha_out_dir (s : ArmorCaptcha) : str :=
  PosixPath.join (PosixPath.dirname (dir_workspace s))
                 (py "captcha_screenshot").

Definition captcha_out_path (os : OS) (s : ArmorCaptcha)
    (name_screenshot : option str) : str :=
  let _suffix :=
    match Dict.get PyStr.eqb (label_alias s) (label s) with
    | Some a => a
    | None => label s
    end in
  let _filename :=
    match name_screenshot with
    | None => of_int (now os) ++ py "." ++ _suffix ++ py ".png"
    | Some n => n
    end in
  PosixPath.join (captcha_out_dir s) _filename.

(** [captcha_screenshot] *)
Definition captcha_screenshot (os : OS) (ctx : Shooter)
    (name_screenshot : option str) : M str :=
  s <- get_self ;;
  let _out_dir := captcha_out_dir s in
  let _out_path := captcha_out_path os s name_screenshot in
  emit (EvMakedirs _out_dir) ;;
  check (makedirs os _out_dir) ;;
  finally_return
    (try_except
       (call_method EvScreenshot (m_screenshot ctx) _out_path)
       (fun err =>
          if isinstance err AttributeError
          then Some (call_method EvSaveScreenshot (m_save_screenshot ctx)
                                 _out_path)
          else if isinstance err Exception
          then Some (log (py "挑战截图保存失败，错误的参数类型"))
          else None))
    (ret _out_path).

(** The local table [sk_solution] of [switch_solution]. *)
Definition sk_solution : Dict.t str SkClass :=
  [ (py "vertical river", VerticalRiverRecognition);
    (py "airplane in the sky flying left", LeftPlaneRecognition);
    (py "airplanes in the sky that are flying to the right",
     RightPlaneRecognition) ].

(** [switch_solution] *)
Definition switch_solution (s : ArmorCaptcha) : Solution :=
  let label_alias_ := Dict.get PyStr.eqb (label_alias s) (label s) in
  match get_opt (pluggable_onnx_models s) label_alias_ with
  | Some m =>
      if model_truthy m then OnnxModel m
      else
        match get_opt sk_solution label_alias_ with
        | Some c => SkImage c (path_rainbow_yaml s)
        | None => YoloModel (yolo_model s)
        end
  | None =>
      match get_opt sk_solution label_alias_ with
      | Some c => SkImage c (path_rainbow_yaml s)
      | None => YoloModel (yolo_model s)
      end
  end.

Definition xpath_task_image : str := py "//div[@class='task-image']".
Definition xpath_prompt_text : str := py "//h2[@class='prompt-text']".
Definition xpath_no_selection : str := py "//body[@class='no-selection']".
Definition xpath_button_submit : str := py "//div[@class='button-submit button']".

(** The character class that [mark_samples] splits [image_style] on: an
    opening parenthesis, a double quote, a closing parenthesis. *)
Definition style_delimiters : str := [40; 34; 41]%N.

(** The [while True] loop of [mark_samples] for one tile.  It has no bound
    of its own, so the model counts the iterations it is allowed: [None]
    says that [fuel] iterations did not end it.  An iteration reads the
    style, splits it, takes piece 2 and records it in [alias2url];
    [IndexError] starts the next iteration, any other exception leaves the
    loop. *)
Fixpoint extract_url (fuel : nat) (attempt : nat) (alias : okey)
    (sample : Sample) (w : World) : option (result unit * World) :=
  match fuel with
  | O => None
  | S f =>
      let w1 := snd (emit (EvStyleRead (sample_id sample) attempt) w) in
      match style_read sample attempt with
      | Raise e =>
          if isinstance e IndexError
          then extract_url f (S attempt) alias sample w1
          else Some (Raise e, w1)
      | Ok None => Some (Raise TypeError, w1)
      | Ok (Some image_style) =>
          match nth_error
                  (re_split_class (in_class style_delimiters) image_style) 2
          with
          | Some url =>
              Some (modify_self
                      (fun s => set_alias2url s
                         (Dict.set okey_eqb (alias2url s) alias url)) w1)
          | None => extract_url f (S attempt) alias sample w1
          end
      end
  end.

(** The [for sample in samples] loop of [mark_samples]. *)
Fixpoint mark_each (fuel : nat) (samples : list Sample) (w : World)
  : option (result unit * World) :=
  match samples with
  | [] => Some (Ok tt, w)
  | sample :: rest =>
      let alias := aria_label sample in
      match extract_url fuel 0 alias sample w with
      | None => None
      | Some (Raise e, w1) => Some (Raise e, w1)
      | Some (Ok _, w1) =>
          mark_each fuel rest
            (snd (modify_self
                    (fun s => set_alias2locator s
                       (Dict.set okey_eqb (alias2locator s) alias sample))
                    w1))
      end
  end.

(** [mark_samples] *)
Definition mark_samples (fuel : nat) (ctx : Chrome) (w : World)
  : option (result unit * World) :=
  match (emit (EvWait 25 xpath_task_image) ;;
         lift (WebDriverWait_until 25 [ElementNotVisibleException]
                 (presence_of_all_elements_located ctx xpath_task_image)) ;;
         emit (EvFindElements xpath_task_image) ;;
         lift (find_elements ctx xpath_task_image)) w
  with
  | (Raise e, w1) => Some (Raise e, w1)
  | (Ok samples, w1) => mark_each fuel samples w1
  end.

Inductive Lang : Type := zh | en.

(** [split_prompt_message], local to [get_label].  The dictionary
    [labels_mirror] is built whole, its [zh] entry first, before one entry
    is picked; indexing a list of pieces out of range raises
    [IndexError]. *)
Definition split_prompt_message (prompt_message : str) (_lang : Lang)
  : result str :=
  let zh_entry :=
    if contains (py "包含") prompt_message
    then match nth_error
                 (re_split_class (in_class (py "包含 图片")) prompt_message) 2
         with
         | Some piece => Ok (slice_to_last piece)
         | None => Raise IndexError
         end
    else Ok prompt_message in
  let en_entry :=
    if contains (py "containing") prompt_message
    then replace (py ".") []
           (strip (slice_from_1
                     (last (re_split_lit (py "containing a") prompt_message)
                           [])))
    else prompt_message in
  match zh_entry with
  | Raise e => Raise e
  | Ok zh_label =>
      Ok (match _lang with
          | zh => zh_label
          | en => en_entry
          end)
  end.

(** [label_cleaning], local to [get_label]: one [replace] per key of
    [BAD_CODE], in the order of the table. *)
Definition label_cleaning (raw_label : str) : str :=
  fold_left (fun clean_label c => replace (fst c) (snd c) clean_label)
            BAD_CODE raw_label.

(** [get_label].  [split_prompt_message] is called without a language, so
    with its default [zh]. *)
Definition get_label (ctx : Chrome) : M unit :=
  try_except_else
    (emit (EvWait 30 xpath_prompt_text) ;;
     lift (WebDriverWait_until 30 [ElementNotVisibleException]
             (presence_of_element_located ctx xpath_prompt_text)))
    (fun e =>
       if isinstance e TimeoutException then Some (raise ChallengeReset)
       else None)
    (fun label_obj =>
       try_except_else
         (text <- lift (el_text label_obj) ;;
          modify_self (fun s => set_prompt s text) ;;
          lift (split_prompt_message text zh))
         (fun e =>
            if isinstance e AttributeError || isinstance e IndexError
            then Some (raise LabelNotFoundException)
            else None)
         (fun _label =>
            modify_self (fun s => set_label s (label_cleaning _label)) ;;
            log (py "获取挑战标签"))).

(** [tactical_retreat] *)
Definition tactical_retreat (os : OS) (ctx : Chrome) : M str :=
  s <- get_self ;;
  match Dict.get PyStr.eqb (label_alias s) (label s) with
  | Some (_ :: _) => ret CHALLENGE_CONTINUE
  | _ =>
      finally_return
        (try_except
           (emit (EvFindElement xpath_no_selection) ;;
            challenge_container <- lift (find_element ctx xpath_no_selection) ;;
            path <- captcha_screenshot os (el_shooter challenge_container)
                      None ;;
            modify_self (fun s => set_path_screenshot s path))
           (fun err =>
              if isinstance err NoSuchElementException then Some (ret tt)
              else if isinstance err WebDriverException
              then Some (emit (EvLoggerException err))
              else None))
        (emit EvCurrentUrl ;;
         _ <- lift (current_url ctx) ;;
         log (py "Types of challenges not yet scheduled") ;;
         ret CHALLENGE_BACKCALL)
  end.

(** [download_images] *)
Definition download_images (os : OS) : M unit :=
  _workspace <- _init_workspace os ;;
  s <- get_self ;;
  for_each (alias2url s)
    (fun item =>
       let path_challenge_img :=
         PosixPath.join _workspace (okey_str (fst item) ++ py ".png") in
       emit (EvFetch (snd item)) ;;
       stream <- lift (http_get os (snd item)) ;;
       emit (EvWriteFile path_challenge_img stream) ;;
       check (write_file os path_challenge_img stream)).

(** [d[k]]: a missing key raises [KeyError]. *)
Definition getitem (K V : Type) (keq : K -> K -> bool) (d : Dict.t K V)
    (k : K) : M V :=
  match Dict.get keq d k with
  | Some v => ret v
  | None => raise KeyError
  end.

(** The classification loop of [challenge]: one tile. *)
Definition classify_and_click (os : OS) (model : Model) (alias : okey)
  : M unit :=
  s <- get_self ;;
  path <- getitem okey_eqb (alias2path s) alias ;;
  emit (EvReadFile path) ;;
  data <- lift (read_file os path) ;;
  label_ <- getitem PyStr.eqb (label_alias s) (label s) ;;
  emit (EvClassify (flag model) data label_) ;;
  result_ <- lift (solution model data label_) ;;
  if result_ : bool
  then try_except
         (locator <- getitem okey_eqb (alias2locator s) alias ;;
          emit (EvClick (sample_id locator)) ;;
          lift (sample_click locator))
         (fun err =>
            if isinstance err StaleElementReferenceException
            then Some (ret tt)
            else if isinstance err WebDriverException
            then Some (emit (EvLoggerWarning err))
            else None)
  else ret tt.

(** The submission at the end of [challenge]. *)
Definition submit_answer (ctx : Chrome) (model : Model) : M unit :=
  try_except_else
    (emit (EvWait 35 xpath_button_submit) ;;
     button <- lift (WebDriverWait_until 35 [ElementClickInterceptedException]
                       (element_to_be_clickable ctx xpath_button_submit)) ;;
     emit EvSubmitClick ;;
     lift (el_click button))
    (fun err =>
       if isinstance err ElementClickInterceptedException then Some (ret tt)
       else if isinstance err WebDriverException
       then Some (log (py "挑战提交失败") ;; raise SubmitException)
       else None)
    (fun _ => log (py "提交挑战")).

(** [challenge] up to the comment that opens the submission: the
    classification loop and the screenshot of the answered grid. *)
Definition image_classification (os : OS) (ctx : Chrome) (model : Model)
  : M unit :=
  log (py "开始挑战") ;;
  s <- get_self ;;
  for_each (Dict.keys (alias2path s)) (classify_and_click os model) ;;
  label_ <- getitem PyStr.eqb (label_alias s) (label s) ;;
  let _filename :=
    of_int (now os) ++ py "." ++ flag model ++ py "." ++ label_ ++ py ".png" in
  captcha_screenshot os (chrome_shooter ctx) (Some _filename) ;;
  ret tt.

(** [challenge] *)
Definition challenge (os : OS) (ctx : Chrome) (model : Model) : M unit :=
  image_classification os ctx model ;;
  submit_answer ctx model.

(* ===================================================================== *)
(** ** Concrete sessions used to exercise the methods *)
(* ===================================================================== *)

Module Scenario.

Definition english_prompt : str :=
  py "Please click on all images containing a bicycle.".

Definition chinese_prompt : str := py "请点击每张包含自行车的图片。".

(** An object with none of the screenshot methods. *)
Definition no_shooter : Shooter :=
  {| m_screenshot := None; m_save_screenshot := None |}.

(** A driver: no [screenshot], a working [save_screenshot]. *)
Definition driver_shooter : Shooter :=
  {| m_screenshot := None; m_save_screenshot := Some (fun _ => Ok tt) |}.

(** An element whose [screenshot] works. *)
Definition element_shooter : Shooter :=
  {| m_screenshot := Some (fun _ => Ok tt); m_save_screenshot := None |}.

Definition prompt_element (text : str) : Element :=
  {| el_shooter := element_shooter; el_text := Ok text; el_click := Ok tt |}.

(** A page on which nothing ever appears. *)
Definition blank_page : Chrome :=
  {| chrome_shooter := driver_shooter;
     presence_of_element_located := fun _ => Never;
     presence_of_all_elements_located := fun _ => Never;
     element_to_be_clickable := fun _ => Never;
     find_element := fun _ => Raise NoSuchElementException;
     find_elements := fun _ => Ok [];
     current_url := Ok (py "https://example.com/") |}.

(** A page on which evaluating any condition, and any lookup, raises
    [e]. *)
Definition broken_page (e : exn) : Chrome :=
  {| chrome_shooter := driver_shooter;
     presence_of_element_located := fun _ => Broken e;
     presence_of_all_elements_located := fun _ => Broken e;
     element_to_be_clickable := fun _ => Broken e;
     find_element := fun _ => Raise e;
     find_elements := fun _ => Raise e;
     current_url := Ok (py "https://example.com/") |}.

(** A page showing a prompt with the given text after one time unit. *)
Definition page_with_prompt (text : str) : Chrome :=
  {| chrome_shooter := driver_shooter;
     presence_of_element_located := fun _ => At 1 (prompt_element text);
     presence_of_all_elements_located := fun _ => Never;
     element_to_be_clickable := fun _ => Never;
     find_element := fun _ => Raise NoSuchElementException;
     find_elements := fun _ => Ok [];
     current_url := Ok (py "https://example.com/") |}.

(** A page showing the given tiles, a challenge container and a submit
    button whose click does [submit]. *)
Definition page_with_tiles (tiles : list Sample) (submit : result unit)
  : Chrome :=
  {| chrome_shooter := driver_shooter;
     presence_of_element_located := fun _ => At 1 (prompt_element []);
     presence_of_all_elements_located := fun _ => At 1 tiles;
     element_to_be_clickable := fun _ =>
       At 1 {| el_shooter := element_shooter; el_text := Ok [];
               el_click := submit |};
     find_element := fun _ => Ok (prompt_element []);
     find_elements := fun _ => Ok tiles;
     current_url := Ok (py "https://example.com/") |}.

Definition image_style (n : N) : str :=
  (py "background: url(") ++ [34%N] ++ py "https://imgs.example/"
    ++ of_int (Z.of_N n) ++ py ".png" ++ [34%N]
    ++ py ") 50% 50% / 123px 123px no-repeat;".

(** A tile that is fully rendered and whose click does [click]. *)
Definition tile (n : N) (click : result unit) : Sample :=
  {| sample_id := n;
     aria_label := Some (py "Challenge Image " ++ of_int (Z.of_N n));
     style_read := fun _ => Ok (Some (image_style n));
     sample_click := click |}.

(** A tile whose style attribute stays empty. *)
Definition unrendered_tile : Sample :=
  {| sample_id := 1;
     aria_label := Some (py "Challenge Image 1");
     style_read := fun _ => Ok (Some []);
     sample_click := Ok tt |}.

(** A tile whose style is empty for the first two reads. *)
Definition slow_tile : Sample :=
  {| sample_id := 1;
     aria_label := Some (py "Challenge Image 1");
     style_read := fun n => if (n <? 2)%nat then Ok (Some [])
                            else Ok (Some (image_style 1));
     sample_click := Ok tt |}.

(** A recognizer that accepts every image. *)
Definition yes_model (name : string) : Model :=
  {| flag := py name; model_truthy := true;
     solution := fun _ _ => Ok true |}.

(** A machine whose file system and network work; every file reads as
    empty. *)
Definition good_os : OS :=
  {| now := 1650000000%Z;
     path_exists := fun _ => false;
     mkdir := fun _ => None;
     makedirs := fun _ => None;
     http_get := fun _ => Ok [];
     write_file := fun _ _ => None;
     read_file := fun _ => Ok [] |}.

(** The first instance of a process: default arguments, an empty
    localized vocabulary, one registered model for [bicycle]. *)
Definition armor : ArmorCaptcha :=
  init label_alias_static None false None false None None []
       [(py "bicycle", yes_model "resnet")] (yes_model "yolo").

Definition world0 : World := {| self := armor; trace := [] |}.

(** The instance after a round left the given label. *)
Definition world_with_label (l : str) : World :=
  {| self := set_label armor l; trace := [] |}.

(** Three tiles; clicking the first one finds it detached. *)
Definition stale_tiles : list Sample :=
  [ tile 1 (Raise StaleElementReferenceException);
    tile 2 (Ok tt);
    tile 3 (Ok tt) ].

(** An instance in the middle of a round on [stale_tiles]: the label is
    known, and every tile has a locator and a local image. *)
Definition armor_in_round : ArmorCaptcha :=
  {| label_alias := label_alias armor;
     debug := false; dir_model := None; screenshot := false;
     path_objects_yaml := None; path_rainbow_yaml := None;
     runtime_workspace := []; path_screenshot := [];
     alias2locator := map (fun t => (aria_label t, t)) stale_tiles;
     alias2url := map (fun t => (aria_label t, image_style (sample_id t)))
                      stale_tiles;
     alias2path := map (fun t => (aria_label t,
                                  py "./" ++ okey_str (aria_label t)
                                    ++ py ".png"))
                       stale_tiles;
     alias2answer := [];
     label := py "自行车"; prompt := chinese_prompt;
     dir_workspace := py ".";
     critical_threshold := 3%N;
     pluggable_onnx_models := pluggable_onnx_models armor;
     yolo_model := yolo_model armor |}.

Definition world_in_round : World :=
  {| self := armor_in_round; trace := [] |}.

End Scenario.


(* ===================================================================== *)
(** ** Auxiliary definitions used in the statements *)
(* ===================================================================== *)

(** Replacing the character [a] by [b], seen on one character. *)
Definition subst1 (a b c : N) : N := if (a =? c)%N then b else c.

(** What [label_cleaning] does to one character: the substitutions of
    [BAD_CODE] in the order of the table. *)
Definition clean_char (c : N) : N :=
  fold_left (fun c kv => match fst kv, snd kv with
                         | [a], [b] => subst1 a b c
                         | _, _ => c
                         end) BAD_CODE c.

(** What waiting for the submit control and clicking it gives. *)
Definition submit_click (ctx : Chrome) : result unit :=
  match WebDriverWait_until 35 [ElementClickInterceptedException]
          (element_to_be_clickable ctx xpath_button_submit) with
  | Ok button => el_click button
  | Raise e => Raise e
  end.


(** Events that fetch an image or classify one. *)
Definition is_fetch_or_classification (ev : event) : bool :=
  match ev with
  | EvFetch _ | EvWriteFile _ _ | EvReadFile _ | EvClassify _ _ _ => true
  | _ => false
  end.

(** Events that ask the browser for a screenshot. *)
Definition is_screenshot_call (ev : event) : bool :=
  match ev with
  | EvScreenshot _ | EvSaveScreenshot _ => true
  | _ => false
  end.


(** Clicks, on a tile or on the submit control. *)
Definition is_click (ev : event) : bool :=
  match ev with
  | EvClick _ | EvSubmitClick => true
  | _ => false
  end.

(** A method body that leaves the instance, and so the registries, as it
    found them. *)
Definition keeps_self (A : Type) (m : M A) : Prop :=
  forall w, self (snd (m w)) = self w.

(** Whether the [n]-th pass through the [while True] loop of
    [mark_samples] ends in [IndexError], so that the loop goes round
    again: the read raised it, or the style splits into fewer than three
    pieces. *)
Definition retries (sample : Sample) (n : nat) : bool :=
  match style_read sample n with
  | Raise e => isinstance e IndexError
  | Ok None => false
  | Ok (Some image_style) =>
      match nth_error
              (re_split_class (in_class style_delimiters) image_style) 2
      with
      | Some _ => false
      | None => true
      end
  end.

(** The code points that [BAD_CODE] replaces by another character. *)
Definition look_alikes : list N :=
  flat_map (fun kv => if PyStr.eqb (fst kv) (snd kv) then [] else fst kv)
           BAD_CODE.

(** A method body whose events all satisfy [P]. *)
Definition emits_only (P : event -> bool) (A : Type) (m : M A) : Prop :=
  forall w, exists tr,
    trace (snd (m w)) = trace w ++ tr /\ forallb P tr = true.

(** The kinds of events each method is made of. *)
Definition of_get_label (ev : event) : bool :=
  match ev with
  | EvWait _ _ | EvLog _ => true
  | _ => false
  end.

Definition of_mark_samples (ev : event) : bool :=
  match ev with
  | EvWait _ _ | EvFindElements _ | EvStyleRead _ _ => true
  | _ => false
  end.

Definition of_tactical_retreat (ev : event) : bool :=
  match ev with
  | EvFindElement _ | EvMakedirs _ | EvScreenshot _ | EvSaveScreenshot _
  | EvLoggerException _ | EvCurrentUrl | EvLog _ => true
  | _ => false
  end.

Definition of_download_images (ev : event) : bool :=
  match ev with
  | EvMkdir _ | EvFetch _ | EvWriteFile _ _ => true
  | _ => false
  end.

Definition of_challenge (ev : event) : bool :=
  match ev with
  | EvLog _ | EvReadFile _ | EvClassify _ _ _ | EvClick _ | EvLoggerWarning _
  | EvMakedirs _ | EvScreenshot _ | EvSaveScreenshot _ | EvWait _ _
  | EvSubmitClick => true
  | _ => false
  end.

(** Reading, classifying or clicking a tile. *)
Definition is_tile_work (ev : event) : bool :=
  match ev with
  | EvReadFile _ | EvClassify _ _ _ | EvClick _ => true
  | _ => false
  end.

(** The URLs fetched and the files written, in order, according to a
    trace. *)
Definition fetched_urls (tr : list event) : list str :=
  flat_map (fun ev => match ev with EvFetch u => [u] | _ => [] end) tr.

Definition written_files (tr : list event) : list (str * bytes) :=
  flat_map (fun ev => match ev with
                      | EvWriteFile p d => [(p, d)]
                      | _ => []
                      end) tr.

(** The directory [_init_workspace] returns and the file [download_images]
    writes for a tile: [_workspace] and [path_challenge_img] of the
    source. *)
Definition workspace_path (os : OS) (s : ArmorCaptcha) : str :=
  PosixPath.join (dir_workspace s)
    (if truthy (label s) then of_int (now os) ++ py "_" ++ label s else []).

Definition challenge_img_path (os : OS) (s : ArmorCaptcha) (alias : okey)
  : str :=
  PosixPath.join (workspace_path os s) (okey_str alias ++ py ".png").

(** A method body that leaves the part [f] of the instance as it found
    it. *)
Definition preserves (X : Type) (f : ArmorCaptcha -> X) (A : Type) (m : M A)
  : Prop :=
  forall w, f (self (snd (m w))) = f (self w).

(** The two registries that hold the local images and the answers. *)
Definition results_of (s : ArmorCaptcha)
  : Dict.t okey str * Dict.t okey bool :=
  (alias2path s, alias2answer s).

(** The body of the loop of [download_images] for one entry of
    [alias2url], [_workspace] being the directory of the round. *)
Definition download_one (os : OS) (_workspace : str) (item : okey * str)
  : M unit :=
  let path_challenge_img :=
    PosixPath.join _workspace (okey_str (fst item) ++ py ".png") in
  bind (emit (EvFetch (snd item))) (fun _ =>
  bind (lift (http_get os (snd item))) (fun stream =>
  bind (emit (EvWriteFile path_challenge_img stream)) (fun _ =>
  check (write_file os path_challenge_img stream)))).

(** An entry of [alias2url] whose image can be fetched and written. *)
Definition downloadable (os : OS) (_workspace : str) (item : okey * str)
  : Prop :=
  exists data,
    http_get os (snd item) = Ok data
    /\ write_file os
         (PosixPath.join _workspace (okey_str (fst item) ++ py ".png")) data
       = None.

(** A machine on which everything works except fetching the URL [u]. *)
Definition os_refusing (u : str) : OS :=
  {| now := 1650000000%Z;
     path_exists := fun _ => true;
     mkdir := fun _ => None;
     makedirs := fun _ => None;
     http_get := fun v => if PyStr.eqb v u then Raise RequestException
                          else Ok [];
     write_file := fun _ _ => None;
     read_file := fun _ => Ok [] |}.

(* --------------------------------------------------------------------- *)
(** [anti_checkbox] *)

(** What the browser does in the [n]-th pass of the loop of
    [anti_checkbox]: when the challenge frame becomes available, when the
    checkbox becomes clickable, and what switching back to the main
    document gives. *)
Record CheckboxPage : Type := {
  frame_to_be_available : nat -> readiness unit;
  checkbox_to_be_clickable : nat -> readiness Element;
  switch_to_default_content : nat -> result unit
}.

Inductive checkbox_event : Type :=
| CbWaitFrame (timeout : N)
| CbWaitCheckbox (timeout : N)
| CbClick
| CbLog (message : str)
| CbDefaultContent.

(** How a pass of the loop ends: with [return], by going round again, or
    with an exception. *)
Inductive pass_end : Type :=
| PassReturn (b : bool)
| PassNext
| PassRaise (e : exn).

(** The [try] block of a pass.  The wait for the frame is told to ignore
    [ElementNotVisibleException]; the wait for the checkbox is made with
    no such argument. *)
Definition checkbox_try (debug_ : bool) (page : CheckboxPage) (n : nat)
  : list checkbox_event * result unit :=
  match WebDriverWait_until 2 [ElementNotVisibleException]
          (frame_to_be_available page n) with
  | Raise e => ([CbWaitFrame 2], Raise e)
  | Ok _ =>
      match WebDriverWait_until 2 [] (checkbox_to_be_clickable page n) with
      | Raise e => ([CbWaitFrame 2; CbWaitCheckbox 2], Raise e)
      | Ok box =>
          match el_click box with
          | Raise e => ([CbWaitFrame 2; CbWaitCheckbox 2; CbClick], Raise e)
          | Ok _ =>
              ([CbWaitFrame 2; CbWaitCheckbox 2; CbClick]
                 ++ (if debug_ then [CbLog (py "Handle hCaptcha checkbox")]
                     else []),
               Ok tt)
          end
      end
  end.

(** One pass: the [try] block, its [except] clauses, and the [finally]
    clause, whose exception, if any, replaces the ending. *)
Definition checkbox_pass (debug_ : bool) (page : CheckboxPage) (n : nat)
  : list checkbox_event * pass_end :=
  let (evs, r) := checkbox_try debug_ page n in
  let ending :=
    match r with
    | Ok _ => PassReturn true
    | Raise e =>
        if isinstance e ElementClickInterceptedException then PassReturn false
        else if isinstance e TimeoutException then PassNext
        else PassRaise e
    end in
  (evs ++ [CbDefaultContent],
   match switch_to_default_content page n with
   | Ok _ => ending
   | Raise e => PassRaise e
   end).

(** [passes] passes of the loop, starting with pass number [n]; falling
    off the end of the loop returns [None]. *)
Fixpoint anti_checkbox_from (debug_ : bool) (page : CheckboxPage)
    (passes n : nat) : list checkbox_event * result (option bool) :=
  match passes with
  | O => ([], Ok None)
  | S p =>
      match checkbox_pass debug_ page n with
      | (evs, PassReturn b) => (evs, Ok (Some b))
      | (evs, PassRaise e) => (evs, Raise e)
      | (evs, PassNext) =>
          let (evs', r) := anti_checkbox_from debug_ page p (S n) in
          (evs ++ evs', r)
      end
  end.

(** [anti_checkbox]: [for _ in range(8)]. *)
Definition anti_checkbox (s : ArmorCaptcha) (page : CheckboxPage)
  : list checkbox_event * result (option bool) :=
  anti_checkbox_from (debug s) page 8 0.

Definition is_wait_frame (ev : checkbox_event) : bool :=
  match ev with CbWaitFrame _ => true | _ => false end.

Definition is_default_content (ev : checkbox_event) : bool :=
  match ev with CbDefaultContent => true | _ => false end.

Definition is_checkbox_click (ev : checkbox_event) : bool :=
  match ev with CbClick => true | _ => false end.

(** A page whose frame never shows in the first [k] passes and whose
    checkbox, in pass [k], is clickable with a click that does [click]. *)
Definition checkbox_page_after (k : nat) (click : result unit)
  : CheckboxPage :=
  {| frame_to_be_available := fun n => if (n <? k)%nat then Never else At 1 tt;
     checkbox_to_be_clickable := fun _ =>
       At 1 {| el_shooter := Scenario.element_shooter; el_text := Ok [];
               el_click := click |};
     switch_to_default_content := fun _ => Ok tt |}.

(* ===================================================================== *)
(** ** Facts about the string operations *)
(* ===================================================================== *)

(** The string operations on the inputs of the source, as Python
    evaluates them. *)
Example split_style_ex :
  nth_error (re_split_class (in_class style_delimiters)
               (Scenario.image_style 1)) 2
  = Some (py "https://imgs.example/1.png").
Proof. reflexivity. Qed.

Example split_prompt_zh_ex :
  split_prompt_message Scenario.chinese_prompt zh = Ok (py "自行车").
Proof. reflexivity. Qed.

Example split_prompt_en_ex :
  split_prompt_message Scenario.english_prompt en = Ok (py "bicycle").
Proof. reflexivity. Qed.

Example label_cleaning_ex :
  label_cleaning (py "саr") = py "car".
Proof. reflexivity. Qed.

Example dirname_join_ex :
  PosixPath.join (PosixPath.dirname (py "/srv/armor/workspace"))
                 (py "captcha_screenshot")
  = py "/srv/armor/captcha_screenshot".
Proof. reflexivity. Qed.

(** The waits of the source: an empty list of tiles is a false value, an
    ignored exception is polled over, any other exception of the
    condition goes out. *)
Example wait_empty_list_ex :
  WebDriverWait_until 25 [ElementNotVisibleException] (At 1 (@nil Sample))
  = Raise TimeoutException.
Proof. reflexivity. Qed.

Example wait_ignored_ex :
  WebDriverWait_until 35 [ElementClickInterceptedException]
    (@Broken Element ElementClickInterceptedException)
  = Raise TimeoutException
  /\ WebDriverWait_until 2 [] (@Broken Element NoSuchElementException)
     = Raise TimeoutException.
Proof. split; reflexivity. Qed.

Example wait_not_ignored_ex :
  WebDriverWait_until 2 [] (@Broken Element ElementNotVisibleException)
  = Raise ElementNotVisibleException.
Proof. reflexivity. Qed.

Example mark_samples_no_tile_ex :
  exists w',
    mark_samples 1 (Scenario.page_with_tiles [] (Ok tt)) Scenario.world0
    = Some (Raise TimeoutException, w').
Proof. eexists. reflexivity. Qed.

Lemma replace_single (a b : N) (s : str) :
  replace [a] [b] s = map (subst1 a b) s.
Proof.
  unfold replace.
  induction s as [|c t IH]; [reflexivity|].
  cbn [replace_go startswith map List.length Nat.sub app].
  unfold subst1 at 1.
  destruct t; rewrite andb_true_r; destruct (a =? c)%N; cbn [app];
    rewrite <- IH; reflexivity.
Qed.

Lemma split_class_nonempty (cls : N -> bool) (s : str) :
  re_split_class cls s <> [].
Proof.
  destruct s as [|c t]; cbn; [discriminate|].
  destruct (cls c); [discriminate|].
  destruct (re_split_class cls t); discriminate.
Qed.

(** A split has one piece more than there are separators. *)
Lemma split_class_length (cls : N -> bool) (s : str) :
  List.length (re_split_class cls s) = S (List.length (filter cls s)).
Proof.
  induction s as [|c t IH]; [reflexivity|].
  cbn [re_split_class filter].
  destruct (cls c); cbn [List.length]; [now rewrite IH|].
  pose proof (split_class_nonempty cls t) as Hne.
  destruct (re_split_class cls t); [contradiction|exact IH].
Qed.

(** A string in which two separators stand side by side splits into at
    least three pieces. *)
Lemma contains_pair_split (cls : N -> bool) (a b : N) (s : str) :
  cls a = true -> cls b = true ->
  contains [a; b] s = true ->
  3 <= List.length (re_split_class cls s).
Proof.
  intros Ha Hb.
  rewrite split_class_length.
  induction s as [|c t IH]; cbn [contains]; [discriminate|].
  intros H. apply orb_true_iff in H. destruct H as [H|H].
  - cbn [startswith] in H.
    destruct t as [|d t']; [rewrite andb_false_r in H; discriminate|].
    rewrite andb_true_r in H.
    apply andb_true_iff in H. destruct H as [H1 H2].
    apply N.eqb_eq in H1. apply N.eqb_eq in H2. subst c d.
    cbn [filter]. rewrite Ha, Hb. cbn [List.length]. lia.
  - specialize (IH H). cbn [filter].
    destruct (cls c); cbn [List.length]; lia.
Qed.

Lemma label_cleaning_map (s : str) : label_cleaning s = map clean_char s.
Proof.
unfold label_cleaning.
change BAD_CODE with (ltac:(let t := eval vm_compute in BAD_CODE in exact t)).
cbn [fold_left fst snd].
rewrite !replace_single, !map_map.
apply map_ext. intros c. reflexivity.
Qed.

Lemma clean_char_idempotent (c : N) : clean_char (clean_char c) = clean_char c.
Proof.
assert (H : clean_char c = c \/
            In (clean_char c) [97; 101; 105; 111; 99; 100; 115; 104; 19968; 22763]%N).
{ unfold clean_char.
  change BAD_CODE with (ltac:(let t := eval vm_compute in BAD_CODE in exact t)).
  cbn [fold_left fst snd]. unfold subst1.
  repeat match goal with
         | |- context [N.eqb ?k c] =>
             destruct (N.eqb_spec k c);
             [subst c; right; vm_compute; tauto|]
         end.
  left; reflexivity. }
destruct H as [H|H]; [now rewrite H|].
cbn [In] in H.
repeat (destruct H as [H|H]; [rewrite <- H; reflexivity|]).
contradiction.
Qed.

(** C6: [label_cleaning] is idempotent: on every string, cleaning the
    cleaned label again changes nothing. *)
Theorem label_cleaning_idempotent (s : str) :
label_cleaning (label_cleaning s) = label_cleaning s.
Proof.
rewrite !label_cleaning_map, map_map.
apply map_ext. exact clean_char_idempotent.
Qed.

Arguments label_cleaning : simpl never.
Arguments split_prompt_message : simpl never.
Arguments py : simpl never.
Arguments of_int : simpl never.
Arguments isinstance : simpl never.
Arguments PosixPath.join : simpl never.
Arguments PosixPath.dirname : simpl never.
Arguments captcha_out_dir : simpl never.
Arguments captcha_out_path : simpl never.
Arguments xpath_task_image : simpl never.
Arguments xpath_prompt_text : simpl never.
Arguments xpath_no_selection : simpl never.
Arguments xpath_button_submit : simpl never.
Arguments CHALLENGE_CONTINUE : simpl never.
Arguments CHALLENGE_BACKCALL : simpl never.
Arguments ignored : simpl never.

Ltac unfold_monad :=
  unfold try_except_else, try_except, finally_return, bind, ret, raise, lift,
    emit, get_self, modify_self, check, log, getitem in *.

Lemma split_prompt_message_zh_total (text : str) :
  exists l, split_prompt_message text zh = Ok l.
Proof.
  unfold split_prompt_message.
  destruct (contains (py "包含") text) eqn:Hc; [|eauto].
  assert (Hlen : 3 <= List.length
                        (re_split_class (in_class (py "包含 图片")) text)).
  { apply contains_pair_split with (a := 0x5305%N) (b := 0x542b%N);
      [reflexivity|reflexivity|exact Hc]. }
  destruct (nth_error (re_split_class (in_class (py "包含 图片")) text) 2)
    eqn:Hn; [eauto|].
  apply nth_error_None in Hn. lia.
Qed.

Lemma split_prompt_message_no_scaffold (text : str) :
  contains (py "包含") text = false ->
  split_prompt_message text zh = Ok text.
Proof.
  intros H. unfold split_prompt_message. rewrite H. reflexivity.
Qed.

Lemma get_label_present (ctx : Chrome) (w : World) (t : N)
    (label_obj : Element) (text l : str) :
  presence_of_element_located ctx xpath_prompt_text = At t label_obj ->
  (t <= 30)%N ->
  el_text label_obj = Ok text ->
  split_prompt_message text zh = Ok l ->
  fst (get_label ctx w) = Ok tt
  /\ label (self (snd (get_label ctx w))) = label_cleaning l
  /\ prompt (self (snd (get_label ctx w))) = text.
Proof.
  intros Hp Ht Htext Hsplit.
  apply N.leb_le in Ht.
  unfold get_label. unfold_monad. cbn.
  rewrite Hp. cbn. rewrite Ht. cbn. rewrite Htext. cbn. rewrite Hsplit. cbn.
  destruct (debug (self w)); cbn; auto.
Qed.

(** C1, as stated, fails: on the English prompt [get_label] stores the whole
    prompt, not [bicycle]. *)
Lemma get_label_english_prompt_not_bicycle :
  label (self (snd (get_label (Scenario.page_with_prompt
                                 Scenario.english_prompt)
                              Scenario.world0)))
  = Scenario.english_prompt
  /\ Scenario.english_prompt <> py "bicycle".
Proof.
  split; [vm_compute; reflexivity | vm_compute; discriminate].
Qed.

(** C1, amended: the English entry of [split_prompt_message] gives
    [bicycle] for the English prompt, but [get_label] asks for the [zh]
    entry.  For every prompt that is present in time and whose text lacks
    the Chinese scaffolding phrase, [get_label] returns, keeps the text in
    [prompt] and stores the whole text, passed through [label_cleaning],
    as the label; for the English prompt that is the prompt itself. *)
Theorem get_label_stores_whole_prompt (ctx : Chrome) (w : World) (t : N)
    (label_obj : Element) (text : str) :
  presence_of_element_located ctx xpath_prompt_text = At t label_obj ->
  (t <= 30)%N ->
  el_text label_obj = Ok text ->
  contains (py "包含") text = false ->
  split_prompt_message Scenario.english_prompt en = Ok (py "bicycle")
  /\ fst (get_label ctx w) = Ok tt
  /\ prompt (self (snd (get_label ctx w))) = text
  /\ label (self (snd (get_label ctx w))) = label_cleaning text
  /\ (text = Scenario.english_prompt ->
      label (self (snd (get_label ctx w))) = Scenario.english_prompt).
Proof.
  intros Hp Ht Htext Hno.
  destruct (get_label_present ctx w Hp Ht Htext
              (split_prompt_message_no_scaffold text Hno)) as (H1 & H2 & H3).
  repeat split; auto.
  intros ->. rewrite H2. vm_compute. reflexivity.
Qed.

(** The English prompt on a page that shows it after one time unit. *)
Lemma get_label_stores_whole_prompt_witness :
  split_prompt_message Scenario.english_prompt en = Ok (py "bicycle")
  /\ label (self (snd (get_label (Scenario.page_with_prompt
                                    Scenario.english_prompt)
                                 Scenario.world0)))
     = Scenario.english_prompt.
Proof.
  pose proof (@get_label_stores_whole_prompt
                (Scenario.page_with_prompt Scenario.english_prompt)
                Scenario.world0 1%N
                (Scenario.prompt_element Scenario.english_prompt)
                Scenario.english_prompt
                eq_refl ltac:(vm_compute; discriminate) eq_refl eq_refl)
    as (H1 & _ & _ & _ & H5).
  split; [exact H1 | exact (H5 eq_refl)].
Defined.

(** C8, as stated, fails: a prompt that is present with an empty text is
    no failure of [get_label], which returns with the empty label and
    raises nothing. *)
Lemma get_label_empty_prompt_returns :
  fst (get_label (Scenario.page_with_prompt []) Scenario.world0) = Ok tt
  /\ label (self (snd (get_label (Scenario.page_with_prompt [])
                                 Scenario.world0))) = [].
Proof. split; vm_compute; reflexivity. Qed.

(** C8, amended: the outcome of [get_label] for every driver.  A prompt
    that is not present within 30 time units raises [ChallengeReset], also
    when looking for it keeps raising an exception that the wait ignores
    ([NoSuchElementException] by default, [ElementNotVisibleException] as
    told); a prompt whose text cannot be read because of an
    [AttributeError] or an [IndexError] raises [LabelNotFoundException];
    the two classes differ; a prompt whose text is a string, the empty one
    included, is no failure. *)
Theorem get_label_outcome (ctx : Chrome) (w : World) :
  fst (get_label ctx w) =
    match presence_of_element_located ctx xpath_prompt_text with
    | Never => Raise ChallengeReset
    | Broken e =>
        if isinstance e NoSuchElementException
           || isinstance e ElementNotVisibleException
           || isinstance e TimeoutException
        then Raise ChallengeReset
        else Raise e
    | At t label_obj =>
        if (t <=? 30)%N
        then match el_text label_obj with
             | Ok _ => Ok tt
             | Raise e =>
                 if isinstance e AttributeError || isinstance e IndexError
                 then Raise LabelNotFoundException
                 else Raise e
             end
        else Raise ChallengeReset
    end
  /\ ChallengeReset <> LabelNotFoundException.
Proof.
  split; [|discriminate].
  unfold get_label. unfold_monad. cbn.
  destruct (presence_of_element_located ctx xpath_prompt_text)
    as [|t label_obj|e]; cbn.
  - reflexivity.
  - destruct (t <=? 30)%N; cbn; [|reflexivity].
    destruct (el_text label_obj) as [text|e]; cbn.
    + destruct (split_prompt_message_zh_total text) as [l Hl].
      rewrite Hl. cbn. destruct (debug (self w)); reflexivity.
    + destruct (isinstance e AttributeError || isinstance e IndexError);
        reflexivity.
  - unfold ignored. cbn [IGNORED_EXCEPTIONS app existsb].
    rewrite orb_false_r.
    destruct (isinstance e NoSuchElementException); cbn; [reflexivity|].
    destruct (isinstance e ElementNotVisibleException); cbn; [reflexivity|].
    destruct (isinstance e TimeoutException); reflexivity.
Qed.

(** A page on which nothing appears, one on which looking for the prompt
    keeps raising [NoSuchElementException], and one that shows the Chinese
    prompt. *)
Lemma get_label_outcome_witness :
  fst (get_label Scenario.blank_page Scenario.world0) = Raise ChallengeReset
  /\ fst (get_label (Scenario.broken_page NoSuchElementException)
                    Scenario.world0) = Raise ChallengeReset
  /\ fst (get_label (Scenario.page_with_prompt Scenario.chinese_prompt)
                    Scenario.world0) = Ok tt.
Proof.
  split; [|split].
  - exact (proj1 (get_label_outcome Scenario.blank_page Scenario.world0)).
  - exact (proj1 (get_label_outcome
                    (Scenario.broken_page NoSuchElementException)
                    Scenario.world0)).
  - exact (proj1 (get_label_outcome
                    (Scenario.page_with_prompt Scenario.chinese_prompt)
                    Scenario.world0)).
Defined.

(** C2: the order of [switch_solution].  Model objects being true as
    Python objects are by default, for every label: a model registered
    under the label's alias is returned; failing that, an alias of
    [sk_solution] gives the recognizer of [sk_recognition] listed for it,
    [VerticalRiverRecognition] for the alias [vertical river], and never
    the YOLO model; in every other case, a label without alias included,
    the YOLO model is returned.  The function has a result on every
    instance. *)
Theorem switch_solution_priority (s : ArmorCaptcha) :
  (forall a m, Dict.get PyStr.eqb (pluggable_onnx_models s) a = Some m ->
               model_truthy m = true) ->
  (forall a m,
      Dict.get PyStr.eqb (label_alias s) (label s) = Some a ->
      Dict.get PyStr.eqb (pluggable_onnx_models s) a = Some m ->
      switch_solution s = OnnxModel m)
  /\ (forall a c,
      Dict.get PyStr.eqb (label_alias s) (label s) = Some a ->
      Dict.get PyStr.eqb (pluggable_onnx_models s) a = None ->
      Dict.get PyStr.eqb sk_solution a = Some c ->
      switch_solution s = SkImage c (path_rainbow_yaml s)
      /\ switch_solution s <> YoloModel (yolo_model s))
  /\ (Dict.get PyStr.eqb (label_alias s) (label s) = Some (py "vertical river") ->
      Dict.get PyStr.eqb (pluggable_onnx_models s) (py "vertical river") = None ->
      switch_solution s = SkImage VerticalRiverRecognition (path_rainbow_yaml s))
  /\ (forall a,
      Dict.get PyStr.eqb (label_alias s) (label s) = Some a ->
      Dict.get PyStr.eqb (pluggable_onnx_models s) a = None ->
      Dict.get PyStr.eqb sk_solution a = None ->
      switch_solution s = YoloModel (yolo_model s))
  /\ (Dict.get PyStr.eqb (label_alias s) (label s) = None ->
      switch_solution s = YoloModel (yolo_model s))
  /\ (exists r, switch_solution s = r).
Proof.
  intros Htrue.
  assert (Hsk : forall a c,
             Dict.get PyStr.eqb (label_alias s) (label s) = Some a ->
             Dict.get PyStr.eqb (pluggable_onnx_models s) a = None ->
             Dict.get PyStr.eqb sk_solution a = Some c ->
             switch_solution s = SkImage c (path_rainbow_yaml s)).
  { intros a c Ha Hm Hc. unfold switch_solution, get_opt.
    rewrite Ha, Hm, Hc. reflexivity. }
  refine (conj _ (conj _ (conj _ (conj _ (conj _ _))))).
  - intros a m Ha Hm. unfold switch_solution, get_opt.
    rewrite Ha, Hm, (Htrue a m Hm). reflexivity.
  - intros a c Ha Hm Hc. rewrite (Hsk a c Ha Hm Hc).
    split; [reflexivity | discriminate].
  - intros Ha Hm. apply (Hsk _ _ Ha Hm). reflexivity.
  - intros a Ha Hm Hc. unfold switch_solution, get_opt.
    rewrite Ha, Hm, Hc. reflexivity.
  - intros Ha. unfold switch_solution, get_opt. rewrite Ha. reflexivity.
  - eauto.
Qed.

(** The label of the source table whose alias is [vertical river], on an
    instance with a model for [bicycle] only. *)
Lemma switch_solution_priority_witness :
  switch_solution (self (Scenario.world_with_label (py "垂直河流")))
  = SkImage VerticalRiverRecognition None
  /\ switch_solution (self (Scenario.world_with_label (py "自行车")))
     = OnnxModel (Scenario.yes_model "resnet")
  /\ switch_solution (self (Scenario.world_with_label (py "狗")))
     = YoloModel (Scenario.yes_model "yolo").
Proof.
  assert (Htrue : forall l a m,
             Dict.get PyStr.eqb
               (pluggable_onnx_models (self (Scenario.world_with_label l))) a
             = Some m -> model_truthy m = true).
  { intros l a m. cbn. destruct (PyStr.eqb (py "bicycle") a);
      [intros [= <-]; reflexivity | discriminate]. }
  split; [|split].
  - exact (proj1 (proj2 (proj2
             (switch_solution_priority
                (self (Scenario.world_with_label (py "垂直河流")))
                (Htrue _)))) eq_refl eq_refl).
  - exact (proj1 (switch_solution_priority
                    (self (Scenario.world_with_label (py "自行车")))
                    (Htrue _))
             (py "bicycle") (Scenario.yes_model "resnet") eq_refl eq_refl).
  - exact (proj1 (proj2 (proj2 (proj2
             (switch_solution_priority
                (self (Scenario.world_with_label (py "狗")))
                (Htrue _)))))
             (py "dog") eq_refl eq_refl eq_refl).
Defined.

(** C10: [captcha_screenshot] returns its output path whatever object it
    is given and whatever the screenshot call does, a missing method, a
    driver error and an exception outside [Exception] included, once the
    output directory could be made; the instance is left as it was. *)
Theorem captcha_screenshot_never_raises (os : OS) (ctx : Shooter)
    (name_screenshot : option str) (w : World) :
  makedirs os (captcha_out_dir (self w)) = None ->
  fst (captcha_screenshot os ctx name_screenshot w)
    = Ok (captcha_out_path os (self w) name_screenshot)
  /\ self (snd (captcha_screenshot os ctx name_screenshot w)) = self w.
Proof.
  intros Hdir.
  unfold captcha_screenshot, call_method. unfold_monad. cbn.
  rewrite Hdir. cbn. split; [reflexivity|].
  destruct ctx as [shot save]. cbn.
  destruct shot as [f|]; cbn.
  - destruct (f (captcha_out_path os (self w) name_screenshot)) as [[]|e];
      cbn; [reflexivity|].
    destruct (isinstance e AttributeError); cbn.
    + destruct save as [g|]; cbn; reflexivity.
    + destruct (isinstance e Exception); cbn; [|reflexivity].
      destruct (debug (self w)); reflexivity.
  - change (isinstance AttributeError AttributeError) with true. cbn.
    destruct save as [g|]; cbn; reflexivity.
Qed.

(** An object with neither screenshot method, and an element whose
    screenshot call is interrupted. *)
Lemma captcha_screenshot_never_raises_witness :
  fst (captcha_screenshot Scenario.good_os Scenario.no_shooter None
         Scenario.world0)
    = Ok (captcha_out_path Scenario.good_os Scenario.armor None)
  /\ fst (captcha_screenshot Scenario.good_os
            {| m_screenshot := Some (fun _ => Raise KeyboardInterrupt);
               m_save_screenshot := None |}
            (Some (py "shot.png")) Scenario.world0)
    = Ok (py "captcha_screenshot/shot.png").
Proof.
  split.
  - exact (proj1 (captcha_screenshot_never_raises
                    Scenario.good_os Scenario.no_shooter None
                    Scenario.world0 eq_refl)).
  - exact (proj1 (captcha_screenshot_never_raises
                    Scenario.good_os
                    {| m_screenshot := Some (fun _ => Raise KeyboardInterrupt);
                       m_save_screenshot := None |}
                    (Some (py "shot.png")) Scenario.world0 eq_refl)).
Defined.

Arguments captcha_screenshot : simpl never.

(** What a call of [captcha_screenshot] leaves behind: the instance as it
    was, and a trace that starts with the making of the output directory
    and holds no fetch or classification. *)
Lemma captcha_screenshot_run (os : OS) (ctx : Shooter)
    (name_screenshot : option str) (w : World) :
  exists tr,
    snd (captcha_screenshot os ctx name_screenshot w)
      = {| self := self w;
           trace := trace w ++ EvMakedirs (captcha_out_dir (self w)) :: tr |}
    /\ forallb (fun ev => negb (is_fetch_or_classification ev)) tr = true
    /\ match makedirs os (captcha_out_dir (self w)) with
       | Some e =>
           fst (captcha_screenshot os ctx name_screenshot w) = Raise e
           /\ tr = []
       | None =>
           fst (captcha_screenshot os ctx name_screenshot w)
             = Ok (captcha_out_path os (self w) name_screenshot)
           /\ (forall f, m_screenshot ctx = Some f ->
                 hd_error tr
                   = Some (EvScreenshot
                             (captcha_out_path os (self w) name_screenshot)))
       end.
Proof.
  unfold captcha_screenshot, call_method. unfold_monad. cbn.
  destruct ctx as [shot save]. cbn.
  destruct (makedirs os (captcha_out_dir (self w))) as [e|]; cbn.
  { exists []. auto. }
  destruct shot as [f|]; cbn.
  - destruct (f (captcha_out_path os (self w) name_screenshot)) as [[]|e];
      cbn.
    { eexists. split; [rewrite <- app_assoc; reflexivity|]. cbn. auto. }
    destruct (isinstance e AttributeError); cbn.
    + destruct save as [g|]; cbn;
        (eexists; split; [rewrite <- ?app_assoc; reflexivity|]; cbn; auto).
    + destruct (isinstance e Exception); cbn;
        [destruct (debug (self w)); cbn|];
        (eexists; split; [rewrite <- ?app_assoc; reflexivity|]; cbn; auto).
  - change (isinstance AttributeError AttributeError) with true. cbn.
    destruct save as [g|]; cbn;
      (eexists; split;
       [rewrite <- ?app_assoc; reflexivity|]; cbn; split; [auto|]; split;
       [auto|discriminate]).
Qed.

(** C3, as stated, fails: for a label without alias on a page without the
    challenge container, [tactical_retreat] returns [backcall] and no
    screenshot was asked for. *)
Lemma tactical_retreat_backcall_without_screenshot :
  fst (tactical_retreat Scenario.good_os Scenario.blank_page
         (Scenario.world_with_label (py "未知")))
    = Ok CHALLENGE_BACKCALL
  /\ trace (snd (tactical_retreat Scenario.good_os Scenario.blank_page
                   (Scenario.world_with_label (py "未知"))))
     = [EvFindElement xpath_no_selection; EvCurrentUrl].
Proof. split; vm_compute; reflexivity. Qed.

(** C3, amended: when the page's address can be read, [tactical_retreat]
    fetches and classifies nothing and leaves the four registries as they
    were.  For a label with a non-empty alias it returns [continue] and
    does nothing.  For a label without alias, or with an empty one, it
    returns [backcall] after looking for the challenge container: when the
    container is not found no screenshot is asked for; when it is found the
    output directory is made and then, if that succeeded and the element has
    a [screenshot] method, the method is called on the output path, which
    is stored in [path_screenshot]. *)
Theorem tactical_retreat_outcome (os : OS) (ctx : Chrome) (w : World)
    (url : str) :
  current_url ctx = Ok url ->
  exists tr,
    trace (snd (tactical_retreat os ctx w)) = trace w ++ tr
    /\ forallb (fun ev => negb (is_fetch_or_classification ev)) tr = true
    /\ alias2locator (self (snd (tactical_retreat os ctx w)))
       = alias2locator (self w)
    /\ alias2url (self (snd (tactical_retreat os ctx w))) = alias2url (self w)
    /\ alias2path (self (snd (tactical_retreat os ctx w)))
       = alias2path (self w)
    /\ alias2answer (self (snd (tactical_retreat os ctx w)))
       = alias2answer (self w)
    /\ match Dict.get PyStr.eqb (label_alias (self w)) (label (self w)) with
       | Some (_ :: _) =>
           fst (tactical_retreat os ctx w) = Ok CHALLENGE_CONTINUE /\ tr = []
       | _ =>
           fst (tactical_retreat os ctx w) = Ok CHALLENGE_BACKCALL
           /\ hd_error tr = Some (EvFindElement xpath_no_selection)
           /\ (forall e, find_element ctx xpath_no_selection = Raise e ->
                         existsb is_screenshot_call tr = false)
           /\ (forall c, find_element ctx xpath_no_selection = Ok c ->
                 nth_error tr 1 = Some (EvMakedirs (captcha_out_dir (self w)))
                 /\ (forall f,
                       makedirs os (captcha_out_dir (self w)) = None ->
                       m_screenshot (el_shooter c) = Some f ->
                       nth_error tr 2
                         = Some (EvScreenshot
                                   (captcha_out_path os (self w) None))
                       /\ path_screenshot
                            (self (snd (tactical_retreat os ctx w)))
                          = captcha_out_path os (self w) None))
       end.
Proof.
  intros Hurl.
  unfold tactical_retreat. unfold_monad. cbn.
  destruct (Dict.get PyStr.eqb (label_alias (self w)) (label (self w)))
    as [[|c0 a]|] eqn:Halias.
  2: { exists []. cbn. rewrite app_nil_r. tauto. }
  all: destruct (find_element ctx xpath_no_selection) as [c|e]; cbn.
  all: try (destruct (isinstance e NoSuchElementException); cbn;
            [|destruct (isinstance e WebDriverException); cbn]).
  all: try (pose proof (captcha_screenshot_run os (el_shooter c) None
                   {| self := self w;
                      trace := trace w ++ [EvFindElement xpath_no_selection] |})
              as (tr & Hw & Hq & Hm);
            destruct (captcha_screenshot os (el_shooter c) None
                   {| self := self w;
                      trace := trace w ++ [EvFindElement xpath_no_selection] |})
              as [r w2];
            cbn in Hw, Hm; subst w2;
            destruct (makedirs os (captcha_out_dir (self w))) as [e0|];
            [destruct Hm as [Hr ->] | destruct Hm as [Hr Hshot]];
            cbn in Hr; subst r; cbn;
            try (destruct (isinstance e0 NoSuchElementException); cbn;
                 [|destruct (isinstance e0 WebDriverException); cbn])).
  all: rewrite Hurl; cbn.
  all: destruct (debug (self w)); cbn.
  all: rewrite <- ?app_assoc; cbn [app].
  all: eexists; (split; [reflexivity|]).
  all: cbn; rewrite ?forallb_app, ?Hq; cbn.
  all: repeat (first [split | intro]); try reflexivity; try congruence.
  all: match goal with
       | H : Ok _ = Ok _ |- _ => injection H as <-
       end.
  all: match goal with
       | H : forall f, m_screenshot _ = Some f -> _,
         H1 : m_screenshot _ = Some _ |- _ =>
           specialize (H _ H1); destruct tr; cbn in H |- *; congruence
       end.
Qed.

(** A label without alias on a page that shows the challenge container,
    and a label of the source table. *)
Lemma tactical_retreat_outcome_witness :
  fst (tactical_retreat Scenario.good_os
         (Scenario.page_with_tiles [] (Ok tt))
         (Scenario.world_with_label (py "未知"))) = Ok CHALLENGE_BACKCALL
  /\ fst (tactical_retreat Scenario.good_os Scenario.blank_page
            (Scenario.world_with_label (py "自行车"))) = Ok CHALLENGE_CONTINUE.
Proof.
  split.
  - destruct (tactical_retreat_outcome Scenario.good_os
                (Scenario.page_with_tiles [] (Ok tt))
                (Scenario.world_with_label (py "未知")) eq_refl)
      as (tr & _ & _ & _ & _ & _ & _ & H).
    exact (proj1 H).
  - destruct (tactical_retreat_outcome Scenario.good_os Scenario.blank_page
                (Scenario.world_with_label (py "自行车")) eq_refl)
      as (tr & _ & _ & _ & _ & _ & _ & H).
    exact (proj1 H).
Defined.

(* ===================================================================== *)
(** ** Methods that do not touch the instance *)
(* ===================================================================== *)

Section KeepsSelf.
Variables A B : Type.

Lemma keeps_ret (a : A) : keeps_self (ret a).
Proof. intros w. reflexivity. Qed.

Lemma keeps_raise (e : exn) : keeps_self (@raise A e).
Proof. intros w. reflexivity. Qed.

Lemma keeps_lift (r : result A) : keeps_self (lift r).
Proof. intros w. reflexivity. Qed.

Lemma keeps_bind (m : M A) (k : A -> M B) :
  keeps_self m -> (forall a, keeps_self (k a)) -> keeps_self (bind m k).
Proof.
  intros Hm Hk w. unfold bind. specialize (Hm w).
  destruct (m w) as [[a|e] w1]; cbn in *; [|assumption].
  now rewrite Hk.
Qed.

Lemma keeps_try_except (body : M A) (handler : exn -> option (M A)) :
  keeps_self body ->
  (forall e h, handler e = Some h -> keeps_self h) ->
  keeps_self (try_except body handler).
Proof.
  intros Hb Hh w. unfold try_except. specialize (Hb w).
  destruct (body w) as [[a|e] w1]; cbn in *; [assumption|].
  destruct (handler e) as [h|] eqn:He; [|assumption].
  now rewrite (Hh e h He).
Qed.

Lemma keeps_try_except_else (body : M A) (handler : exn -> option (M B))
    (els : A -> M B) :
  keeps_self body ->
  (forall e h, handler e = Some h -> keeps_self h) ->
  (forall a, keeps_self (els a)) ->
  keeps_self (try_except_else body handler els).
Proof.
  intros Hb Hh He w. unfold try_except_else. specialize (Hb w).
  destruct (body w) as [[a|e] w1]; cbn in *.
  - now rewrite He.
  - destruct (handler e) as [h|] eqn:Hhe; [|assumption].
    now rewrite (Hh e h Hhe).
Qed.

Lemma keeps_finally_return (body : M A) (fin : M B) :
  keeps_self body -> keeps_self fin -> keeps_self (finally_return body fin).
Proof.
  intros Hb Hf w. unfold finally_return. now rewrite Hf, Hb.
Qed.

End KeepsSelf.

Lemma keeps_for_each (A : Type) (xs : list A) (body : A -> M unit) :
  (forall x, keeps_self (body x)) -> keeps_self (for_each xs body).
Proof.
  intros Hbody. induction xs as [|x r IH]; [apply keeps_ret|].
  cbn [for_each]. apply keeps_bind; auto.
Qed.

Lemma keeps_emit (ev : event) : keeps_self (emit ev).
Proof. intros w. reflexivity. Qed.

Lemma keeps_get_self : keeps_self get_self.
Proof. intros w. reflexivity. Qed.

Lemma keeps_check (r : option exn) : keeps_self (check r).
Proof. intros w. destruct r; reflexivity. Qed.

Lemma keeps_log (message : str) : keeps_self (log message).
Proof. intros w. unfold log, bind, get_self. destruct (debug (self w)); reflexivity. Qed.

Lemma keeps_getitem (K V : Type) (keq : K -> K -> bool) (d : Dict.t K V)
    (k : K) : keeps_self (getitem keq d k).
Proof. intros w. unfold getitem. destruct (Dict.get keq d k); reflexivity. Qed.

Lemma keeps_call_method (ev : str -> event)
    (m : option (str -> result unit)) (path : str) :
  keeps_self (call_method ev m path).
Proof. intros w. destruct m; reflexivity. Qed.

Create HintDb keeps.
#[local] Hint Resolve keeps_ret keeps_raise keeps_lift keeps_emit
  keeps_get_self keeps_check keeps_log keeps_getitem keeps_call_method
  : keeps.

(** Goes through a method body built from the combinators; handlers are
    opened clause by clause. *)
Ltac keeps :=
  repeat first
    [ progress auto with keeps
    | apply keeps_bind; [|intro]
    | apply keeps_for_each; intro
    | apply keeps_finally_return
    | apply keeps_try_except_else; [| |intro]
    | apply keeps_try_except
    | match goal with
      | |- forall e h, _ = Some h -> keeps_self h =>
          let H := fresh in
          intros ? ? H;
          repeat match type of H with
                 | (if ?c then _ else _) = _ => destruct c
                 end;
          first [discriminate H | injection H as <-]
      | |- keeps_self (if ?c then _ else _) => destruct c
      | |- keeps_self (match ?c with _ => _ end) => destruct c
      end ].

Lemma captcha_screenshot_keeps (os : OS) (ctx : Shooter)
    (name_screenshot : option str) :
  keeps_self (captcha_screenshot os ctx name_screenshot).
Proof. unfold captcha_screenshot. keeps. Qed.

Lemma classify_and_click_keeps (os : OS) (model : Model) (k : okey) :
  keeps_self (classify_and_click os model k).
Proof. unfold classify_and_click. keeps. Qed.

Lemma submit_answer_keeps (ctx : Chrome) (model : Model) :
  keeps_self (submit_answer ctx model).
Proof. unfold submit_answer. keeps. Qed.

Lemma image_classification_keeps (os : OS) (ctx : Chrome) (model : Model) :
  keeps_self (image_classification os ctx model).
Proof.
  unfold image_classification.
  pose proof classify_and_click_keeps. pose proof captcha_screenshot_keeps.
  keeps.
Qed.

Lemma challenge_keeps (os : OS) (ctx : Chrome) (model : Model) :
  keeps_self (challenge os ctx model).
Proof.
  unfold challenge.
  pose proof image_classification_keeps. pose proof submit_answer_keeps.
  keeps.
Qed.

Lemma _init_workspace_keeps (os : OS) : keeps_self (_init_workspace os).
Proof. unfold _init_workspace. keeps. Qed.

Lemma download_images_keeps (os : OS) : keeps_self (download_images os).
Proof.
  unfold download_images. pose proof _init_workspace_keeps. keeps.
Qed.

(* ===================================================================== *)
(** ** Facts about keys and dictionaries *)
(* ===================================================================== *)

Lemma eqb_eq (a b : str) : PyStr.eqb a b = true <-> a = b.
Proof.
  revert b. induction a as [|x a IH]; intros [|y b]; cbn;
    try (split; [discriminate|discriminate]); [tauto|].
  rewrite andb_true_iff, N.eqb_eq, IH.
  split; [intros [-> ->]; reflexivity | intros [= -> ->]; auto].
Qed.

Lemma okey_eqb_eq (a b : okey) : okey_eqb a b = true <-> a = b.
Proof.
  destruct a as [a|], b as [b|]; cbn;
    try (split; [discriminate|discriminate]); [|tauto].
  rewrite eqb_eq. split; [intros ->; reflexivity | intros [= ->]; auto].
Qed.

Section DictFacts.
Variables K V : Type.
Variable keq : K -> K -> bool.
Hypothesis keq_eq : forall a b, keq a b = true <-> a = b.

Lemma keq_refl (k : K) : keq k k = true.
Proof. now apply keq_eq. Qed.

Lemma keq_neq (a b : K) : a <> b -> keq a b = false.
Proof.
  intros H. destruct (keq a b) eqn:E; [|reflexivity].
  apply keq_eq in E. contradiction.
Qed.

Lemma dict_get_set (d : Dict.t K V) (k k' : K) (v : V) :
  Dict.get keq (Dict.set keq d k v) k'
  = if keq k k' then Some v else Dict.get keq d k'.
Proof.
  induction d as [|[k0 v0] d IH]; cbn.
  - destruct (keq k k'); reflexivity.
  - destruct (keq k0 k) eqn:E0; cbn.
    + apply keq_eq in E0. subst k0. destruct (keq k k'); reflexivity.
    + destruct (keq k0 k') eqn:E1; [|exact IH].
      apply keq_eq in E1. subst k0.
      destruct (keq k k') eqn:E2; [|reflexivity].
      apply keq_eq in E2. subst k'. rewrite keq_refl in E0. discriminate.
Qed.

Lemma dict_keys_set (d : Dict.t K V) (k : K) (v : V) :
  Dict.keys (Dict.set keq d k v)
  = if Dict.mem keq d k then Dict.keys d else Dict.keys d ++ [k].
Proof.
  unfold Dict.mem, Dict.keys.
  induction d as [|[k0 v0] d IH]; cbn; [reflexivity|].
  destruct (keq k0 k) eqn:E0; cbn; [reflexivity|].
  rewrite IH. destruct (Dict.get keq d k); reflexivity.
Qed.

Lemma dict_mem_keys (d : Dict.t K V) (k : K) :
  Dict.mem keq d k = true <-> In k (Dict.keys d).
Proof.
  unfold Dict.mem, Dict.keys.
  induction d as [|[k0 v0] d IH]; cbn; [split; [discriminate|tauto]|].
  destruct (keq k0 k) eqn:E0.
  - apply keq_eq in E0. split; auto.
  - rewrite IH. split; [auto|]. intros [->|H]; [|exact H].
    rewrite keq_refl in E0. discriminate.
Qed.

Lemma dict_get_app (d e : Dict.t K V) (k : K) :
  Dict.get keq (d ++ e) k
  = match Dict.get keq d k with
    | Some v => Some v
    | None => Dict.get keq e k
    end.
Proof.
  induction d as [|[k0 v0] d IH]; cbn; [reflexivity|].
  destruct (keq k0 k); [reflexivity|exact IH].
Qed.

(** After [d.update(e)] a key of [e] has the value of its last entry in
    [e]; any other key has the value it had in [d]. *)
Lemma dict_get_update (e : Dict.t K V) :
  forall (d : Dict.t K V) (k : K),
    Dict.get keq (Dict.update keq d e) k
    = match Dict.get keq (List.rev e) k with
      | Some v => Some v
      | None => Dict.get keq d k
      end.
Proof.
  unfold Dict.update.
  induction e as [|[k0 v0] e IH]; intros d k; cbn [fold_left List.rev];
    [reflexivity|].
  cbn [fst snd]. rewrite IH, dict_get_app, dict_get_set. cbn.
  destruct (Dict.get keq (List.rev e) k); [reflexivity|].
  destruct (keq k0 k); reflexivity.
Qed.
End DictFacts.

(* ===================================================================== *)
(** ** The classification loop and the submission of [challenge] *)
(* ===================================================================== *)

Arguments classify_and_click : simpl never.
Arguments submit_answer : simpl never.





Lemma submit_click_cases (ctx : Chrome) :
  match element_to_be_clickable ctx xpath_button_submit with
  | Never => submit_click ctx = Raise TimeoutException
  | At t button =>
      submit_click ctx
      = if (t <=? 35)%N then el_click button else Raise TimeoutException
  | Broken e' =>
      submit_click ctx
      = if isinstance e' NoSuchElementException
           || isinstance e' ElementClickInterceptedException
        then Raise TimeoutException else Raise e'
  end.
Proof.
  unfold submit_click, WebDriverWait_until, ignored.
  destruct (element_to_be_clickable ctx xpath_button_submit)
    as [|t button|e']; cbn.
  - reflexivity.
  - destruct (t <=? 35)%N; reflexivity.
  - rewrite orb_false_r.
    destruct (isinstance e' NoSuchElementException
              || isinstance e' ElementClickInterceptedException);
      reflexivity.
Qed.

(** C4: the end of [challenge].  When the classification part has
    returned and waiting for the submit control and clicking it raises an
    exception of Selenium's, then: if it is the click-intercepted one
    [challenge] returns as usual; otherwise it raises [SubmitException].
    In both cases the instance is as it was before the call, and after the
    failed interaction the trace holds at most the debug line about it, no
    click.  The tolerated exception can only be that of the click itself:
    the wait was told to ignore [ElementClickInterceptedException], so a
    condition that keeps raising it, or [NoSuchElementException], ends in
    the timeout of the wait, which is one of the other failures. *)
Theorem submit_failure (os : OS) (ctx : Chrome) (model : Model) (w : World)
    (e : exn) :
  fst (image_classification os ctx model w) = Ok tt ->
  submit_click ctx = Raise e ->
  isinstance e WebDriverException = true ->
  fst (challenge os ctx model w)
    = (if isinstance e ElementClickInterceptedException then Ok tt
       else Raise SubmitException)
  /\ self (snd (challenge os ctx model w)) = self w
  /\ trace (snd (challenge os ctx model w))
     = trace (snd (image_classification os ctx model w))
       ++ EvWait 35 xpath_button_submit
       :: match WebDriverWait_until 35 [ElementClickInterceptedException]
                  (element_to_be_clickable ctx xpath_button_submit) with
          | Ok _ => [EvSubmitClick]
          | Raise _ => []
          end
       ++ (if isinstance e ElementClickInterceptedException then []
           else if debug (self w) then [EvLog (py "挑战提交失败")]
           else [])
  /\ (isinstance e ElementClickInterceptedException = true ->
      exists t button,
        element_to_be_clickable ctx xpath_button_submit = At t button
        /\ (t <= 35)%N
        /\ el_click button = Raise e)
  /\ (forall e',
        element_to_be_clickable ctx xpath_button_submit = Broken e' ->
        isinstance e' ElementClickInterceptedException = true
        \/ isinstance e' NoSuchElementException = true ->
        e = TimeoutException
        /\ fst (challenge os ctx model w) = Raise SubmitException).
Proof.
  intros Hok Hclick Hweb.
  assert (Hres : fst (challenge os ctx model w)
                 = (if isinstance e ElementClickInterceptedException then Ok tt
                    else Raise SubmitException)).
  { unfold challenge, bind.
    destruct (image_classification os ctx model w) as [r w1].
    cbn in Hok |- *; subst r.
    unfold submit_click in Hclick.
    unfold submit_answer; unfold_monad; cbn.
    destruct (WebDriverWait_until 35 [ElementClickInterceptedException]
                (element_to_be_clickable ctx xpath_button_submit))
      as [button|e0]; cbn; [|injection Hclick as ->]; try rewrite Hclick;
      cbn.
    all: destruct (isinstance e ElementClickInterceptedException); cbn.
    all: try rewrite Hweb; cbn.
    all: try destruct (debug (self w1)); cbn.
    all: reflexivity. }
  split; [exact Hres|]. split; [apply challenge_keeps|]. split; [|split].
  - pose proof (image_classification_keeps os ctx model w) as Hself.
    unfold challenge, bind.
    destruct (image_classification os ctx model w) as [r w1].
    cbn in Hok, Hself |- *; subst r.
    unfold submit_click in Hclick.
    unfold submit_answer; unfold_monad; cbn.
    destruct (WebDriverWait_until 35 [ElementClickInterceptedException]
                (element_to_be_clickable ctx xpath_button_submit))
      as [button|e0]; cbn; [|injection Hclick as ->]; try rewrite Hclick;
      cbn.
    all: destruct (isinstance e ElementClickInterceptedException); cbn.
    all: try rewrite Hweb; cbn; try rewrite Hself.
    all: try destruct (debug (self w)); cbn.
    all: rewrite <- ?app_assoc; reflexivity.
  - intros Hint.
    pose proof (submit_click_cases ctx) as Hc.
    destruct (element_to_be_clickable ctx xpath_button_submit)
      as [|t button|e0].
    + rewrite Hclick in Hc. injection Hc as ->. discriminate Hint.
    + destruct (t <=? 35)%N eqn:Ht.
      * exists t, button. split; [reflexivity|].
        split; [now apply N.leb_le|]. now rewrite <- Hc.
      * rewrite Hclick in Hc. injection Hc as ->. discriminate Hint.
    + destruct (isinstance e0 NoSuchElementException) eqn:H1; cbn in Hc.
      { rewrite Hclick in Hc. injection Hc as ->. discriminate Hint. }
      destruct (isinstance e0 ElementClickInterceptedException) eqn:H2;
        rewrite Hclick in Hc; injection Hc as ->;
        [discriminate Hint|congruence].
  - intros e0 Hb Hign.
    pose proof (submit_click_cases ctx) as Hc. rewrite Hb in Hc.
    assert (Hor : isinstance e0 NoSuchElementException
                  || isinstance e0 ElementClickInterceptedException = true).
    { apply orb_true_iff. tauto. }
    rewrite Hor, Hclick in Hc. injection Hc as ->.
    split; [reflexivity|]. exact Hres.
Qed.

(** A submit control that never becomes clickable; one whose click is
    intercepted; and one for which the condition of the wait keeps raising
    [ElementClickInterceptedException], on a page with no tiles left to
    classify. *)
Lemma submit_failure_witness :
  fst (challenge Scenario.good_os Scenario.blank_page
         (Scenario.yes_model "resnet")
         (Scenario.world_with_label (py "自行车")))
  = Raise SubmitException
  /\ fst (challenge Scenario.good_os
            (Scenario.page_with_tiles
               [] (Raise ElementClickInterceptedException))
            (Scenario.yes_model "resnet")
            (Scenario.world_with_label (py "自行车")))
     = Ok tt
  /\ fst (challenge Scenario.good_os
            (Scenario.broken_page ElementClickInterceptedException)
            (Scenario.yes_model "resnet")
            (Scenario.world_with_label (py "自行车")))
     = Raise SubmitException.
Proof.
  split; [|split].
  - exact (proj1 (@submit_failure Scenario.good_os Scenario.blank_page
                    (Scenario.yes_model "resnet")
                    (Scenario.world_with_label (py "自行车"))
                    TimeoutException eq_refl eq_refl eq_refl)).
  - exact (proj1 (@submit_failure Scenario.good_os
                    (Scenario.page_with_tiles
                       [] (Raise ElementClickInterceptedException))
                    (Scenario.yes_model "resnet")
                    (Scenario.world_with_label (py "自行车"))
                    ElementClickInterceptedException
                    eq_refl eq_refl eq_refl)).
  - exact (proj1 (@submit_failure Scenario.good_os
                    (Scenario.broken_page ElementClickInterceptedException)
                    (Scenario.yes_model "resnet")
                    (Scenario.world_with_label (py "自行车"))
                    TimeoutException eq_refl eq_refl eq_refl)).
Defined.

(* ===================================================================== *)
(** ** The registries after [mark_samples] and [download_images] *)
(* ===================================================================== *)

(** C5, on the code: [download_images] leaves every registry as it found
    it, so it never fills [alias2path]; after [mark_samples] and
    [download_images] on a page with one rendered tile, [alias2locator]
    and [alias2url] hold the tile while [alias2path] and [alias2answer]
    are empty. *)
Theorem download_images_leaves_alias2path_empty :
  (forall os w, self (snd (download_images os w)) = self w)
  /\ exists w1 w2,
       mark_samples 1
         (Scenario.page_with_tiles [Scenario.tile 1 (Ok tt)] (Ok tt))
         (Scenario.world_with_label (py "自行车")) = Some (Ok tt, w1)
       /\ download_images Scenario.good_os w1 = (Ok tt, w2)
       /\ Dict.keys (alias2locator (self w2)) = [Some (py "Challenge Image 1")]
       /\ Dict.keys (alias2url (self w2)) = [Some (py "Challenge Image 1")]
       /\ In (EvFetch (py "https://imgs.example/1.png")) (trace w2)
       /\ Dict.keys (alias2path (self w2)) = []
       /\ Dict.keys (alias2answer (self w2)) = [].
Proof.
  split; [exact download_images_keeps|].
  eexists. eexists.
  split; [vm_compute; reflexivity|].
  split; [vm_compute; reflexivity|].
  repeat split; try (vm_compute; reflexivity).
  vm_compute. tauto.
Qed.

(* ===================================================================== *)
(** ** The spin-wait of [mark_samples] *)
(* ===================================================================== *)

Lemma extract_url_step (fuel attempt : nat) (alias : okey) (sample : Sample)
    (w : World) :
  extract_url (S fuel) attempt alias sample w =
    if retries sample attempt
    then extract_url fuel (S attempt) alias sample
           (snd (emit (EvStyleRead (sample_id sample) attempt) w))
    else extract_url 1 attempt alias sample w.
Proof.
  unfold retries. cbn [extract_url].
  destruct (style_read sample attempt) as [[image_style|]|e];
    [|reflexivity|].
  - destruct (nth_error
                (re_split_class (in_class style_delimiters) image_style) 2);
      reflexivity.
  - destruct (isinstance e IndexError); reflexivity.
Qed.

Lemma extract_url_last (attempt : nat) (alias : okey) (sample : Sample)
    (w : World) :
  retries sample attempt = false ->
  extract_url 1 attempt alias sample w <> None.
Proof.
  unfold retries. cbn [extract_url].
  destruct (style_read sample attempt) as [[image_style|]|e];
    [|discriminate|].
  - destruct (nth_error
                (re_split_class (in_class style_delimiters) image_style) 2);
      discriminate.
  - intros ->. discriminate.
Qed.

(** The loop ends within [fuel] passes exactly when one of the first
    [fuel] passes does not end in [IndexError]. *)
Lemma extract_url_ends_iff (fuel : nat) (alias : okey) (sample : Sample) :
  forall attempt w,
    extract_url fuel attempt alias sample w <> None
    <-> exists n, n < fuel /\ retries sample (attempt + n) = false.
Proof.
  induction fuel as [|fuel IH]; intros attempt w.
  { cbn. split; [congruence|]. intros (n & Hn & _). lia. }
  rewrite extract_url_step.
  destruct (retries sample attempt) eqn:Hr.
  - rewrite IH. split.
    + intros (n & Hn & Hf). exists (S n). split; [lia|].
      now rewrite Nat.add_succ_r.
    + intros (n & Hn & Hf). destruct n as [|n].
      * rewrite Nat.add_0_r in Hf. congruence.
      * exists n. split; [lia|]. now rewrite Nat.add_succ_r in Hf.
  - split.
    + intros _. exists 0. split; [lia|]. now rewrite Nat.add_0_r.
    + intros _. now apply extract_url_last.
Qed.

Lemma mark_samples_unrendered (fuel : nat) :
  mark_samples fuel
    (Scenario.page_with_tiles [Scenario.unrendered_tile] (Ok tt))
    Scenario.world0 = None.
Proof.
  unfold mark_samples. unfold_monad. cbn.
  match goal with
  | |- match extract_url fuel 0 ?a ?s ?w with _ => _ end = None =>
      destruct (extract_url fuel 0 a s w) as [r|] eqn:H; [|reflexivity];
      assert (Hne : extract_url fuel 0 a s w <> None) by congruence;
      apply extract_url_ends_iff in Hne
  end.
  destruct Hne as (n & _ & Hn). discriminate Hn.
Qed.

(** C9, as stated, fails: for a tile whose style attribute stays empty, no
    number of passes ends the loop of [mark_samples]. *)
Lemma mark_samples_spins_forever :
  ~ exists fuel r,
      mark_samples fuel
        (Scenario.page_with_tiles [Scenario.unrendered_tile] (Ok tt))
        Scenario.world0 = Some r.
Proof.
  intros (fuel & r & H). rewrite mark_samples_unrendered in H. discriminate.
Qed.

(** C9, amended: the wait of [mark_samples] for the tiles is bounded, by 25
    time units, after which [TimeoutException] is raised whatever the
    number of passes allowed to the loops; the loop that reads a tile's
    style has no bound: it ends exactly when some pass does not end in
    [IndexError], and then [mark_samples] on that tile returns; it never
    ends when every pass does. *)
Theorem spin_wait_ends_iff_some_read_succeeds :
  (forall fuel ctx w t samples,
      presence_of_all_elements_located ctx xpath_task_image = Never
      \/ (presence_of_all_elements_located ctx xpath_task_image = At t samples
          /\ (25 < t)%N) ->
      exists w', mark_samples fuel ctx w = Some (Raise TimeoutException, w'))
  /\ (forall fuel alias sample w,
        extract_url fuel 0 alias sample w <> None
        <-> exists n, n < fuel /\ retries sample n = false)
  /\ (forall alias sample w,
        (forall n, retries sample n = true) ->
        forall fuel, extract_url fuel 0 alias sample w = None).
Proof.
  split; [|split].
  - intros fuel ctx w t samples H.
    unfold mark_samples. unfold_monad. cbn.
    destruct H as [->|[-> Ht]]; cbn.
    + eauto.
    + apply N.leb_gt in Ht. rewrite Ht. cbn. eauto.
  - intros fuel alias sample w. apply extract_url_ends_iff.
  - intros alias sample w Hall fuel.
    destruct (extract_url fuel 0 alias sample w) eqn:H; [|reflexivity].
    assert (Hne : extract_url fuel 0 alias sample w <> None) by congruence.
    apply extract_url_ends_iff in Hne. destruct Hne as (n & _ & Hn).
    rewrite Hall in Hn. discriminate.
Qed.

(** A tile that is rendered at the third read: three passes end the loop,
    two do not; and a page whose tiles never appear. *)
Lemma spin_wait_ends_iff_some_read_succeeds_witness :
  extract_url 3 0 None Scenario.slow_tile Scenario.world0 <> None
  /\ extract_url 2 0 None Scenario.slow_tile Scenario.world0 = None
  /\ exists w', mark_samples 0 Scenario.blank_page Scenario.world0
                = Some (Raise TimeoutException, w').
Proof.
  split; [|split].
  - apply (proj1 (proj2 spin_wait_ends_iff_some_read_succeeds)).
    exists 2. split; [lia|reflexivity].
  - reflexivity.
  - apply (proj1 spin_wait_ends_iff_some_read_succeeds
             0 Scenario.blank_page Scenario.world0 0%N []).
    left. reflexivity.
Defined.

(* ===================================================================== *)
(** ** Further properties: prompts and labels *)
(* ===================================================================== *)

Lemma startswith_app (p r : str) : startswith p (p ++ r) = true.
Proof.
  induction p as [|x p IH]; [reflexivity|].
  cbn. now rewrite N.eqb_refl, IH.
Qed.

Lemma contains_app (sub p r : str) : contains sub (p ++ sub ++ r) = true.
Proof.
  induction p as [|x p IH]; cbn [app].
  - destruct (sub ++ r) eqn:E; cbn [contains]; rewrite <- E;
      now rewrite startswith_app.
  - cbn [contains]. rewrite IH. apply orb_true_r.
Qed.

(** A prefix without separator joins the first piece of what follows. *)
Lemma split_class_app (cls : N -> bool) (p s : str) :
  forallb (fun c => negb (cls c)) p = true ->
  re_split_class cls (p ++ s)
  = (p ++ hd [] (re_split_class cls s)) :: tl (re_split_class cls s).
Proof.
  intros Hp. induction p as [|x p IH]; cbn [app].
  - pose proof (split_class_nonempty cls s).
    destruct (re_split_class cls s); [contradiction|reflexivity].
  - cbn in Hp. apply andb_true_iff in Hp. destruct Hp as [Hx Hp].
    cbn [re_split_class]. apply negb_true_iff in Hx. rewrite Hx.
    rewrite (IH Hp). reflexivity.
Qed.

(** X1: [split_prompt_message] returns for every prompt text and either
    language: the index [2] it takes is in range whenever the Chinese
    phrase is in the prompt, so it never raises [IndexError]. *)
Theorem split_prompt_message_never_raises (text : str) (lang : Lang) :
  exists l, split_prompt_message text lang = Ok l.
Proof.
  destruct (split_prompt_message_zh_total text) as [l Hl].
  unfold split_prompt_message in *.
  destruct (if contains (py "包含") text
            then match nth_error
                         (re_split_class (in_class (py "包含 图片")) text) 2
                 with
                 | Some piece => Ok (slice_to_last piece)
                 | None => Raise IndexError
                 end
            else Ok text) as [z|e]; [|discriminate].
  destruct lang; eauto.
Qed.

(** X2: the Chinese entry on a prompt of the expected shape.  When the text
    before the phrase 包含 holds none of the five separators (包, 含, space,
    图, 片), and the phrase is followed by the label, one more character and
    then a separator or the end, [split_prompt_message] gives the label. *)
Theorem split_prompt_message_zh_extracts (before label_ rest : str) (c : N) :
  forallb (fun x => negb (in_class (py "包含 图片") x)) before = true ->
  forallb (fun x => negb (in_class (py "包含 图片") x)) (label_ ++ [c])
    = true ->
  match rest with
  | [] => True
  | d :: _ => in_class (py "包含 图片") d = true
  end ->
  split_prompt_message (before ++ py "包含" ++ (label_ ++ [c]) ++ rest) zh
  = Ok label_.
Proof.
  intros Hb Hl Hrest.
  unfold split_prompt_message.
  rewrite contains_app.
  rewrite (split_class_app _ before _ Hb).
  change (py "包含") with [0x5305; 0x542b]%N.
  cbn [app].
  change (re_split_class (in_class (py "包含 图片"))
            (0x5305 :: 0x542b :: (label_ ++ [c]) ++ rest)%N)
    with ([] :: [] :: re_split_class (in_class (py "包含 图片"))
                        ((label_ ++ [c]) ++ rest)).
  rewrite (split_class_app _ (label_ ++ [c]) rest Hl).
  cbn [hd tl nth_error].
  assert (Hhd : hd [] (re_split_class (in_class (py "包含 图片")) rest) = []).
  { destruct rest as [|d r]; [reflexivity|].
    cbn [re_split_class]. rewrite Hrest. reflexivity. }
  rewrite Hhd, app_nil_r. unfold slice_to_last.
  now rewrite removelast_last.
Qed.

(** The prompt of the Chinese page for the label 自行车. *)
Lemma split_prompt_message_zh_extracts_witness :
  split_prompt_message Scenario.chinese_prompt zh = Ok (py "自行车").
Proof.
  exact (@split_prompt_message_zh_extracts
           (py "请点击每张") (py "自行车") (py "图片。") 0x7684%N
           eq_refl eq_refl eq_refl).
Defined.

Lemma clean_char_cases (c : N) :
  (In c look_alikes /\ clean_char c <> c /\ ~ In (clean_char c) look_alikes)
  \/ (~ In c look_alikes /\ clean_char c = c).
Proof.
  unfold clean_char.
  change BAD_CODE with (ltac:(let t := eval vm_compute in BAD_CODE in exact t)).
  change look_alikes
    with (ltac:(let t := eval vm_compute in look_alikes in exact t)).
  cbn [fold_left fst snd]. unfold subst1.
  repeat match goal with
         | |- context [N.eqb ?k c] =>
             destruct (N.eqb_spec k c);
             [subst c; first
                [ left; vm_compute;
                  (split; [tauto|split; [discriminate|]]);
                  intros H; repeat (destruct H as [H|H]; [discriminate H|]);
                  exact H
                | right; vm_compute; split; [|reflexivity];
                  intros H; repeat (destruct H as [H|H]; [discriminate H|]);
                  exact H ]|]
         end.
  right. split; [|reflexivity].
  cbn [In]. intros H.
  repeat (destruct H as [H|H]; [congruence|]). exact H.
Qed.

Lemma label_cleaning_no_look_alike (s : str) (c : N) :
  In c (label_cleaning s) -> ~ In c look_alikes.
Proof.
  rewrite label_cleaning_map. intros Hc.
  apply in_map_iff in Hc. destruct Hc as (x & <- & _).
  destruct (clean_char_cases x) as [(_ & _ & H)|(H & ->)]; exact H.
Qed.

(** X3: what [label_cleaning] guarantees.  It keeps the length of the
    label, leaves no look-alike code point in its result, and changes a
    label exactly when the label holds a look-alike. *)
Theorem label_cleaning_removes_look_alikes (s : str) :
  List.length (label_cleaning s) = List.length s
  /\ (forall c, In c (label_cleaning s) -> ~ In c look_alikes)
  /\ (label_cleaning s = s <-> forall c, In c s -> ~ In c look_alikes).
Proof.
  split; [rewrite label_cleaning_map; apply length_map|]. split.
  - apply label_cleaning_no_look_alike.
  - rewrite label_cleaning_map. induction s as [|x s IH]; cbn [map].
    + split; [intros _ c []|reflexivity].
    + split.
      * intros [= Hx Hs] c [<-|Hc].
        -- destruct (clean_char_cases x) as [(_ & H & _)|(H & _)];
             [contradiction|exact H].
        -- now apply IH.
      * intros H. f_equal.
        -- destruct (clean_char_cases x) as [(Hin & _)|(_ & Hx)];
             [|exact Hx]. exfalso. apply (H x); [now left|exact Hin].
        -- apply IH. intros c Hc. apply H. now right.
Qed.

(** X4: a call of [get_label] that raises leaves the instance, its label and
    prompt included, as it was. *)
Theorem get_label_failure_keeps_instance (ctx : Chrome) (w : World)
    (e : exn) :
  fst (get_label ctx w) = Raise e ->
  self (snd (get_label ctx w)) = self w.
Proof.
  unfold get_label. unfold_monad. cbn.
  destruct (presence_of_element_located ctx xpath_prompt_text)
    as [|t label_obj|e0]; cbn.
  - reflexivity.
  - destruct (t <=? 30)%N; cbn; [|reflexivity].
    destruct (el_text label_obj) as [text|e0]; cbn.
    + destruct (split_prompt_message_zh_total text) as [l Hl].
      rewrite Hl. cbn. destruct (debug (self w)); cbn; discriminate.
    + destruct (isinstance e0 AttributeError || isinstance e0 IndexError);
        reflexivity.
  - destruct (ignored [ElementNotVisibleException] e0); cbn; [reflexivity|].
    destruct (isinstance e0 TimeoutException); reflexivity.
Qed.

(** A page on which the prompt never appears, after a round that left a
    label. *)
Lemma get_label_failure_keeps_instance_witness :
  label (self (snd (get_label Scenario.blank_page
                      (Scenario.world_with_label (py "自行车")))))
  = py "自行车".
Proof.
  exact (f_equal label
           (@get_label_failure_keeps_instance Scenario.blank_page
              (Scenario.world_with_label (py "自行车")) ChallengeReset
              eq_refl)).
Defined.

(** X5: after a call of [get_label] that returns, the stored label is
    clean (cleaning it again changes nothing and it holds no look-alike
    code point), while the alias table and the four registries are as
    before the call. *)
Theorem get_label_success_label_is_clean (ctx : Chrome) (w : World) :
  fst (get_label ctx w) = Ok tt ->
  label_cleaning (label (self (snd (get_label ctx w))))
    = label (self (snd (get_label ctx w)))
  /\ (forall c, In c (label (self (snd (get_label ctx w)))) ->
                ~ In c look_alikes)
  /\ label_alias (self (snd (get_label ctx w))) = label_alias (self w)
  /\ alias2locator (self (snd (get_label ctx w))) = alias2locator (self w)
  /\ alias2url (self (snd (get_label ctx w))) = alias2url (self w)
  /\ alias2path (self (snd (get_label ctx w))) = alias2path (self w)
  /\ alias2answer (self (snd (get_label ctx w))) = alias2answer (self w).
Proof.
  unfold get_label. unfold_monad. cbn.
  destruct (presence_of_element_located ctx xpath_prompt_text)
    as [|t label_obj|e0]; cbn; try discriminate.
  2: { destruct (ignored [ElementNotVisibleException] e0); cbn;
         [discriminate|].
       destruct (isinstance e0 TimeoutException); discriminate. }
  destruct (t <=? 30)%N; cbn; [|discriminate].
  destruct (el_text label_obj) as [text|e0]; cbn.
  2: { destruct (isinstance e0 AttributeError || isinstance e0 IndexError);
       discriminate. }
  destruct (split_prompt_message_zh_total text) as [l Hl].
  rewrite Hl. cbn. intros _.
  assert (Hclean : forall c, In c (label_cleaning l) -> ~ In c look_alikes)
    by apply label_cleaning_no_look_alike.
  assert (Hfix : label_cleaning (label_cleaning l) = label_cleaning l).
  { rewrite !label_cleaning_map, map_map. apply map_ext.
    exact clean_char_idempotent. }
  destruct (debug (self w)); cbn;
    (split; [exact Hfix|]); (split; [exact Hclean|]); repeat split.
Qed.

(** A prompt written with the Cyrillic look-alike of the letter [a]. *)
Lemma get_label_success_label_is_clean_witness :
  label_cleaning
    (label (self (snd (get_label (Scenario.page_with_prompt (py "саr"))
                         Scenario.world0))))
  = label (self (snd (get_label (Scenario.page_with_prompt (py "саr"))
                        Scenario.world0))).
Proof.
  exact (proj1 (@get_label_success_label_is_clean
                  (Scenario.page_with_prompt (py "саr"))
                  Scenario.world0 eq_refl)).
Defined.

(* ===================================================================== *)
(** ** Further properties: the retreat, the alias table, screenshot paths *)
(* ===================================================================== *)

(** X6: [tactical_retreat] for every driver and machine.  It returns
    [continue] exactly for a label with a non-empty alias; it returns no
    other value than [continue] and [backcall]; and the only exception that
    can leave it is the one raised by reading the address of the page. *)
Theorem tactical_retreat_continue_iff (os : OS) (ctx : Chrome) (w : World) :
  (fst (tactical_retreat os ctx w) = Ok CHALLENGE_CONTINUE
   <-> exists a, Dict.get PyStr.eqb (label_alias (self w)) (label (self w))
                 = Some a /\ a <> [])
  /\ (forall r, fst (tactical_retreat os ctx w) = Ok r ->
                r = CHALLENGE_CONTINUE \/ r = CHALLENGE_BACKCALL)
  /\ (forall e, fst (tactical_retreat os ctx w) = Raise e ->
                current_url ctx = Raise e).
Proof.
  assert (Hne : CHALLENGE_BACKCALL <> CHALLENGE_CONTINUE)
    by (vm_compute; discriminate).
  unfold tactical_retreat.
  repeat match goal with
         | |- context [bind get_self ?k w] =>
             change (bind get_self k w) with (k (self w) w); cbv beta
         end.
  destruct (Dict.get PyStr.eqb (label_alias (self w)) (label (self w)))
    as [[|c a]|] eqn:Halias.
  2: { cbn. split; [split; [intros _|reflexivity]|split].
       - exists (c :: a). split; [reflexivity|discriminate].
       - intros r H. injection H as H. left. now symmetry.
       - discriminate. }
  all: unfold finally_return.
  all: match goal with
       | |- context [snd (?b ?w0)] => generalize (snd (b w0)); intros w1
       end.
  all: unfold_monad; cbn.
  all: destruct (current_url ctx) as [u|e0]; cbn;
       [destruct (debug (self w1)); cbn|].
  all: (split; [split|split]).
  all: try discriminate; try congruence.
  all: try (intros (a & [= <-] & Ha); congruence).
  all: try (intros (a & [=] & Ha)).
  all: try (intros r H; injection H as H; right; now symmetry).
Qed.

(** X7: the alias table a new instance reads.  [__init__] updates the
    dictionary of the class in place: whatever the class holds when it
    runs, a label of the recognizers' vocabulary gets the alias of its last
    entry there, also when the class lists the label already, and every
    other label keeps the alias the class held for it, which for the first
    instance of a process is the one of the table in the source text.  The
    update stays: an instance made next reads its own vocabulary first,
    then the vocabulary of the instance made before it, and only then what
    the class held at the start. *)
Theorem init_label_alias (cls : Dict.t str str)
    (dir_workspace1 dir_workspace2 : option str) (debug1 debug2 : bool)
    (dir_model1 dir_model2 : option str) (screenshot1 screenshot2 : bool)
    (path_objects_yaml1 path_objects_yaml2 : option str)
    (path_rainbow_yaml1 path_rainbow_yaml2 : option str)
    (vocabulary1 vocabulary2 : Dict.t str str)
    (overloaded1 overloaded2 : Dict.t str Model) (yolo1 yolo2 : Model)
    (k : str) :
  Dict.get PyStr.eqb
    (label_alias (init cls dir_workspace1 debug1 dir_model1 screenshot1
                    path_objects_yaml1 path_rainbow_yaml1
                    vocabulary1 overloaded1 yolo1)) k
  = match Dict.get PyStr.eqb (List.rev vocabulary1) k with
    | Some a => Some a
    | None => Dict.get PyStr.eqb cls k
    end
  /\ Dict.get PyStr.eqb
       (label_alias
          (init (label_alias
                   (init cls dir_workspace1 debug1 dir_model1 screenshot1
                      path_objects_yaml1 path_rainbow_yaml1
                      vocabulary1 overloaded1 yolo1))
             dir_workspace2 debug2 dir_model2 screenshot2
             path_objects_yaml2 path_rainbow_yaml2
             vocabulary2 overloaded2 yolo2)) k
     = match Dict.get PyStr.eqb (List.rev vocabulary2) k with
       | Some a => Some a
       | None =>
           match Dict.get PyStr.eqb (List.rev vocabulary1) k with
           | Some a => Some a
           | None => Dict.get PyStr.eqb cls k
           end
       end.
Proof.
  cbn [init label_alias].
  rewrite !(@dict_get_update _ _ PyStr.eqb eqb_eq). split; reflexivity.
Qed.

Lemma of_int_head (z : Z) :
  exists c r, of_int z = c :: r /\ c <> PosixPath.sep.
Proof.
  assert (Hd : forall u, u <> Decimal.Nil ->
                 exists c r, digits u = c :: r /\ c <> PosixPath.sep).
  { intros u Hu. destruct u; [contradiction| ..]; cbn;
      (do 2 eexists; split; [reflexivity|discriminate]). }
  unfold of_int. destruct z as [|p|p]; cbn.
  - do 2 eexists. split; [reflexivity|discriminate].
  - apply Hd. apply DecimalPos.Unsigned.to_uint_nonnil.
  - do 2 eexists. split; [reflexivity|discriminate].
Qed.

Lemma join_relative (a b : str) :
  a <> [] -> endswith [PosixPath.sep] a = false ->
  startswith [PosixPath.sep] b = false ->
  PosixPath.join a b = a ++ PosixPath.sep :: b.
Proof.
  intros Ha He Hb. unfold PosixPath.join. rewrite Hb, He.
  destruct a; [contradiction|reflexivity].
Qed.

Lemma captcha_out_dir_shape (s : ArmorCaptcha) :
  captcha_out_dir s <> []
  /\ endswith [PosixPath.sep] (captcha_out_dir s) = false.
Proof.
  assert (H : exists p, captcha_out_dir s = p ++ py "captcha_screenshot").
  { unfold captcha_out_dir, PosixPath.join.
    change (startswith [PosixPath.sep] (py "captcha_screenshot")) with false.
    cbv iota.
    destruct (negb (truthy (PosixPath.dirname (dir_workspace s)))
              || endswith [PosixPath.sep]
                   (PosixPath.dirname (dir_workspace s))).
    - eexists. reflexivity.
    - exists (PosixPath.dirname (dir_workspace s) ++ [PosixPath.sep]).
      now rewrite <- app_assoc. }
  destruct H as [p ->]. split.
  - intros E. apply app_eq_nil in E. destruct E as [_ E].
    vm_compute in E. discriminate.
  - unfold endswith. rewrite rev_app_distr.
    change (List.rev (py "captcha_screenshot"))
      with (116%N :: List.rev (py "captcha_screensho")).
    reflexivity.
Qed.

(** X8: where [captcha_screenshot] writes.  With no file name given, or
    with one that does not start with a slash, the output path is the file
    name inside the directory [captcha_screenshot] next to the workspace;
    a file name that starts with a slash is used as it is, outside that
    directory. *)
Theorem captcha_out_path_shape (os : OS) (s : ArmorCaptcha)
    (name_screenshot : option str) :
  captcha_out_path os s name_screenshot =
    match name_screenshot with
    | None =>
        captcha_out_dir s ++ PosixPath.sep
          :: of_int (now os) ++ py "."
             ++ match Dict.get PyStr.eqb (label_alias s) (label s) with
                | Some a => a
                | None => label s
                end ++ py ".png"
    | Some n =>
        if startswith [PosixPath.sep] n then n
        else captcha_out_dir s ++ PosixPath.sep :: n
    end.
Proof.
  destruct (captcha_out_dir_shape s) as [Hne Hend].
  unfold captcha_out_path.
  destruct name_screenshot as [n|].
  - destruct (startswith [PosixPath.sep] n) eqn:Hn.
    + unfold PosixPath.join. now rewrite Hn.
    + now apply join_relative.
  - apply join_relative; [exact Hne|exact Hend|].
    destruct (of_int_head (now os)) as (c & r & -> & Hc).
    cbn [app startswith]. apply N.eqb_neq in Hc.
    rewrite N.eqb_sym, Hc. reflexivity.
Qed.

(* ===================================================================== *)
(** ** Further properties: the registries filled by [mark_samples] *)
(* ===================================================================== *)

Lemma mem_of_keys (V1 V2 : Type) (d1 : Dict.t okey V1) (d2 : Dict.t okey V2)
    (k : okey) :
  Dict.keys d1 = Dict.keys d2 ->
  Dict.mem okey_eqb d1 k = Dict.mem okey_eqb d2 k.
Proof.
  intros H.
  pose proof (@dict_mem_keys _ _ okey_eqb okey_eqb_eq d1 k) as H1.
  pose proof (@dict_mem_keys _ _ okey_eqb okey_eqb_eq d2 k) as H2.
  rewrite H in H1.
  destruct (Dict.mem okey_eqb d1 k), (Dict.mem okey_eqb d2 k); try reflexivity.
  - symmetry. apply H2. now apply H1.
  - apply H1. now apply H2.
Qed.

(** One run of the loop over a tile's style either records a URL under the
    tile's alias or leaves the instance alone. *)
Lemma extract_url_effect (fuel : nat) (alias : okey) (sample : Sample) :
  forall attempt w r w',
    extract_url fuel attempt alias sample w = Some (r, w') ->
    (r = Ok tt
     /\ exists url,
          self w' = set_alias2url (self w)
                      (Dict.set okey_eqb (alias2url (self w)) alias url))
    \/ ((exists e, r = Raise e) /\ self w' = self w).
Proof.
  induction fuel as [|fuel IH]; intros attempt w r w'; [discriminate|].
  cbn [extract_url].
  destruct (style_read sample attempt) as [[image_style|]|e].
  - destruct (nth_error
                (re_split_class (in_class style_delimiters) image_style) 2)
      as [url|].
    + intros [= <- <-]. left. split; [reflexivity|]. now exists url.
    + intros H. apply IH in H. exact H.
  - intros [= <- <-]. right. split; [eauto|reflexivity].
  - destruct (isinstance e IndexError).
    + intros H. apply IH in H. exact H.
    + intros [= <- <-]. right. split; [eauto|reflexivity].
Qed.

Lemma mark_each_keys (fuel : nat) (samples : list Sample) :
  forall w r w',
    mark_each fuel samples w = Some (r, w') ->
    Dict.keys (alias2url (self w)) = Dict.keys (alias2locator (self w)) ->
    Dict.keys (alias2url (self w')) = Dict.keys (alias2locator (self w')).
Proof.
  induction samples as [|sample rest IH]; intros w r w'; cbn [mark_each].
  { intros [= <- <-]. auto. }
  destruct (extract_url fuel 0 (aria_label sample) sample w)
    as [[[[]|e] w1]|] eqn:Hx; [| |discriminate].
  - destruct (extract_url_effect _ _ _ _ _ Hx)
      as [(_ & url & Hs)|((e & He) & _)]; [|discriminate].
    intros H Hk. apply IH in H; [exact H|].
    unfold modify_self.
    cbn [snd self alias2url alias2locator set_alias2locator].
    rewrite Hs.
    cbn [alias2url alias2locator set_alias2url].
    rewrite !(@dict_keys_set _ _ okey_eqb).
    rewrite (mem_of_keys _ _ _ Hk), Hk. reflexivity.
  - destruct (extract_url_effect _ _ _ _ _ Hx)
      as [(He & _)|(_ & Hs)]; [discriminate|].
    intros [= <- <-] Hk. now rewrite Hs.
Qed.

Lemma mark_samples_cases (fuel : nat) (ctx : Chrome) (w : World)
    (r : result unit) (w' : World) :
  mark_samples fuel ctx w = Some (r, w') ->
  (self w' = self w /\ exists e, r = Raise e)
  \/ exists samples w1,
       find_elements ctx xpath_task_image = Ok samples
       /\ self w1 = self w
       /\ mark_each fuel samples w1 = Some (r, w').
Proof.
  unfold mark_samples. unfold_monad. cbn.
  destruct (WebDriverWait_until 25 [ElementNotVisibleException]
              (presence_of_all_elements_located ctx xpath_task_image))
    as [found|e]; cbn.
  2: { intros [= <- <-]. left. eauto. }
  destruct (find_elements ctx xpath_task_image) as [samples|e]; cbn.
  2: { intros [= <- <-]. left. eauto. }
  intros H. right. eexists. eexists. split; [reflexivity|].
  split; [|exact H]. reflexivity.
Qed.

(** X9: [mark_samples] keeps the locator and the URL registries on the same
    keys, in the same order: when they agree before the call they agree
    after it, whether the call returns or raises. *)
Theorem mark_samples_keeps_keys_equal (fuel : nat) (ctx : Chrome) (w : World)
    (r : result unit) (w' : World) :
  mark_samples fuel ctx w = Some (r, w') ->
  Dict.keys (alias2url (self w)) = Dict.keys (alias2locator (self w)) ->
  Dict.keys (alias2url (self w')) = Dict.keys (alias2locator (self w')).
Proof.
  intros H Hk.
  destruct (mark_samples_cases _ _ _ H)
    as [(Hs & _)|(samples & w1 & _ & Hs & Hm)].
  - now rewrite Hs.
  - apply (mark_each_keys _ _ _ Hm). now rewrite Hs.
Qed.

(** Two rendered tiles on a fresh instance. *)
Lemma mark_samples_keeps_keys_equal_witness :
  exists w',
    mark_samples 1
      (Scenario.page_with_tiles
         [Scenario.tile 1 (Ok tt); Scenario.tile 2 (Ok tt)] (Ok tt))
      Scenario.world0 = Some (Ok tt, w')
    /\ Dict.keys (alias2url (self w')) = Dict.keys (alias2locator (self w')).
Proof.
  eexists. split; [vm_compute; reflexivity|].
  refine (@mark_samples_keeps_keys_equal 1
            (Scenario.page_with_tiles
               [Scenario.tile 1 (Ok tt); Scenario.tile 2 (Ok tt)] (Ok tt))
            Scenario.world0 (Ok tt) _ _ eq_refl).
  vm_compute. reflexivity.
Defined.

Lemma mark_each_registers (fuel : nat) (samples : list Sample) :
  forall w w',
    mark_each fuel samples w = Some (Ok tt, w') ->
    (forall sample, In sample samples ->
       (exists url, Dict.get okey_eqb (alias2url (self w'))
                      (aria_label sample) = Some url)
       /\ exists t, Dict.get okey_eqb (alias2locator (self w'))
                      (aria_label sample) = Some t
                    /\ In t samples /\ aria_label t = aria_label sample)
    /\ (forall k u, Dict.get okey_eqb (alias2url (self w)) k = Some u ->
          exists u', Dict.get okey_eqb (alias2url (self w')) k = Some u')
    /\ (forall k t, Dict.get okey_eqb (alias2locator (self w)) k = Some t ->
          exists t', Dict.get okey_eqb (alias2locator (self w')) k = Some t'
                     /\ (t' = t \/ (In t' samples /\ aria_label t' = k))).
Proof.
  induction samples as [|sample rest IH]; intros w w'; cbn [mark_each].
  { intros [= <-]. split; [intros ? []|]. split; eauto. }
  destruct (extract_url fuel 0 (aria_label sample) sample w)
    as [[[[]|e] w1]|] eqn:Hx; [|discriminate|discriminate].
  destruct (extract_url_effect _ _ _ _ _ Hx)
    as [(_ & url & Hs)|((e & He) & _)]; [|discriminate].
  intros H. apply IH in H. destruct H as (Hall & Hurl & Hloc).
  unfold modify_self in Hurl, Hloc.
  cbn [snd self alias2url alias2locator set_alias2locator] in Hurl, Hloc.
  rewrite Hs in Hurl, Hloc.
  cbn [alias2url alias2locator set_alias2url] in Hurl, Hloc.
  assert (Hu : forall k u,
             Dict.get okey_eqb
               (Dict.set okey_eqb (alias2url (self w)) (aria_label sample) url)
               k = Some u ->
             exists u', Dict.get okey_eqb (alias2url (self w')) k = Some u')
    by exact Hurl.
  assert (Hl : forall k t,
             Dict.get okey_eqb
               (Dict.set okey_eqb (alias2locator (self w))
                  (aria_label sample) sample) k = Some t ->
             exists t', Dict.get okey_eqb (alias2locator (self w')) k
                        = Some t'
                        /\ (t' = t \/ (In t' rest /\ aria_label t' = k)))
    by exact Hloc.
  clear Hurl Hloc.
  split; [|split].
  - intros s [<-|Hin].
    + split.
      * apply (Hu (aria_label sample) url).
        rewrite (@dict_get_set _ _ okey_eqb okey_eqb_eq).
        now rewrite (@keq_refl _ okey_eqb okey_eqb_eq).
      * destruct (Hl (aria_label sample) sample) as (t' & Ht' & Hcase).
        { rewrite (@dict_get_set _ _ okey_eqb okey_eqb_eq).
          now rewrite (@keq_refl _ okey_eqb okey_eqb_eq). }
        exists t'. split; [exact Ht'|].
        destruct Hcase as [->|[Hr Ha]]; [split; [now left|reflexivity]|].
        split; [now right|exact Ha].
    + destruct (Hall s Hin) as (Hsu & t & Ht & Htin & Hta).
      split; [exact Hsu|]. exists t. split; [exact Ht|].
      split; [now right|exact Hta].
  - intros k u Hk.
    destruct (okey_eqb (aria_label sample) k) eqn:E.
    + apply (Hu k url).
      rewrite (@dict_get_set _ _ okey_eqb okey_eqb_eq). now rewrite E.
    + apply (Hu k u).
      rewrite (@dict_get_set _ _ okey_eqb okey_eqb_eq). now rewrite E.
  - intros k t Hk.
    destruct (okey_eqb (aria_label sample) k) eqn:E.
    + destruct (Hl k sample) as (t' & Ht' & Hcase).
      { rewrite (@dict_get_set _ _ okey_eqb okey_eqb_eq). now rewrite E. }
      apply okey_eqb_eq in E.
      exists t'. split; [exact Ht'|]. right.
      destruct Hcase as [->|[Hr Ha]]; [split; [now left|exact E]|].
      split; [now right|exact Ha].
    + destruct (Hl k t) as (t' & Ht' & Hcase).
      { rewrite (@dict_get_set _ _ okey_eqb okey_eqb_eq). now rewrite E. }
      exists t'. split; [exact Ht'|].
      destruct Hcase as [->|[Hr Ha]]; [now left|].
      right. split; [now right|exact Ha].
Qed.

(** X10: when [mark_samples] returns, every tile the page showed is
    registered: its [aria-label] is a key of the URL registry, and the
    locator registry maps it to a tile of the page bearing that label (the
    last one, when several tiles share a label). *)
Theorem mark_samples_registers_every_tile (fuel : nat) (ctx : Chrome)
    (w w' : World) (samples : list Sample) (sample : Sample) :
  mark_samples fuel ctx w = Some (Ok tt, w') ->
  find_elements ctx xpath_task_image = Ok samples ->
  In sample samples ->
  (exists url, Dict.get okey_eqb (alias2url (self w')) (aria_label sample)
               = Some url)
  /\ exists t, Dict.get okey_eqb (alias2locator (self w'))
                 (aria_label sample) = Some t
               /\ In t samples /\ aria_label t = aria_label sample.
Proof.
  intros H Hfind Hin.
  destruct (mark_samples_cases _ _ _ H)
    as [(_ & e & He)|(samples' & w1 & Hfind' & _ & Hm)]; [discriminate|].
  rewrite Hfind in Hfind'. injection Hfind' as <-.
  exact (proj1 (mark_each_registers _ _ _ Hm) sample Hin).
Qed.

(** The second of two rendered tiles. *)
Lemma mark_samples_registers_every_tile_witness :
  exists w',
    mark_samples 1
      (Scenario.page_with_tiles
         [Scenario.tile 1 (Ok tt); Scenario.tile 2 (Ok tt)] (Ok tt))
      Scenario.world0 = Some (Ok tt, w')
    /\ exists url,
         Dict.get okey_eqb (alias2url (self w'))
           (Some (py "Challenge Image 2")) = Some url.
Proof.
  eexists. split; [vm_compute; reflexivity|].
  refine (proj1 (@mark_samples_registers_every_tile 1
                   (Scenario.page_with_tiles
                      [Scenario.tile 1 (Ok tt); Scenario.tile 2 (Ok tt)]
                      (Ok tt))
                   Scenario.world0 _ _ (Scenario.tile 2 (Ok tt))
                   eq_refl eq_refl _)).
  right. left. reflexivity.
Defined.

(* ===================================================================== *)
(** ** Further properties: what the methods do and do not touch *)
(* ===================================================================== *)

Section EmitsOnly.
Variable P : event -> bool.
Variables A B : Type.

Lemma emits_ret (a : A) : emits_only P (ret a).
Proof. intros w. exists []. cbn. now rewrite app_nil_r. Qed.

Lemma emits_raise (e : exn) : emits_only P (@raise A e).
Proof. intros w. exists []. cbn. now rewrite app_nil_r. Qed.

Lemma emits_lift (r : result A) : emits_only P (lift r).
Proof. intros w. exists []. cbn. now rewrite app_nil_r. Qed.

Lemma emits_bind (m : M A) (k : A -> M B) :
  emits_only P m -> (forall a, emits_only P (k a)) ->
  emits_only P (bind m k).
Proof.
  intros Hm Hk w. unfold bind. destruct (Hm w) as (tr & Ht & Hp).
  destruct (m w) as [[a|e] w1]; cbn in *; [|eauto].
  destruct (Hk a w1) as (tr2 & Ht2 & Hp2).
  exists (tr ++ tr2). rewrite Ht2, Ht, app_assoc, forallb_app, Hp, Hp2. auto.
Qed.

Lemma emits_try_except (body : M A) (handler : exn -> option (M A)) :
  emits_only P body ->
  (forall e h, handler e = Some h -> emits_only P h) ->
  emits_only P (try_except body handler).
Proof.
  intros Hb Hh w. unfold try_except. destruct (Hb w) as (tr & Ht & Hp).
  destruct (body w) as [[a|e] w1]; cbn in *; [eauto|].
  destruct (handler e) as [h|] eqn:He; [|eauto].
  destruct (Hh e h He w1) as (tr2 & Ht2 & Hp2).
  exists (tr ++ tr2). rewrite Ht2, Ht, app_assoc, forallb_app, Hp, Hp2. auto.
Qed.

Lemma emits_try_except_else (body : M A) (handler : exn -> option (M B))
    (els : A -> M B) :
  emits_only P body ->
  (forall e h, handler e = Some h -> emits_only P h) ->
  (forall a, emits_only P (els a)) ->
  emits_only P (try_except_else body handler els).
Proof.
  intros Hb Hh He w. unfold try_except_else.
  destruct (Hb w) as (tr & Ht & Hp).
  destruct (body w) as [[a|e] w1]; cbn in *.
  - destruct (He a w1) as (tr2 & Ht2 & Hp2).
    exists (tr ++ tr2).
    rewrite Ht2, Ht, app_assoc, forallb_app, Hp, Hp2. auto.
  - destruct (handler e) as [h|] eqn:Hhe; [|eauto].
    destruct (Hh e h Hhe w1) as (tr2 & Ht2 & Hp2).
    exists (tr ++ tr2).
    rewrite Ht2, Ht, app_assoc, forallb_app, Hp, Hp2. auto.
Qed.

Lemma emits_finally_return (body : M A) (fin : M B) :
  emits_only P body -> emits_only P fin ->
  emits_only P (finally_return body fin).
Proof.
  intros Hb Hf w. unfold finally_return.
  destruct (Hb w) as (tr & Ht & Hp).
  destruct (Hf (snd (body w))) as (tr2 & Ht2 & Hp2).
  exists (tr ++ tr2). rewrite Ht2, Ht, app_assoc, forallb_app, Hp, Hp2. auto.
Qed.
End EmitsOnly.

Lemma emits_for_each (P : event -> bool) (A : Type) (xs : list A)
    (body : A -> M unit) :
  (forall x, emits_only P (body x)) -> emits_only P (for_each xs body).
Proof.
  intros Hbody. induction xs as [|x r IH]; [apply emits_ret|].
  cbn [for_each]. apply emits_bind; auto.
Qed.

Lemma emits_emit (P : event -> bool) (ev : event) :
  P ev = true -> emits_only P (emit ev).
Proof. intros H w. exists [ev]. cbn. now rewrite H. Qed.

Lemma emits_get_self (P : event -> bool) : emits_only P get_self.
Proof. intros w. exists []. cbn. now rewrite app_nil_r. Qed.

Lemma emits_modify_self (P : event -> bool)
    (f : ArmorCaptcha -> ArmorCaptcha) : emits_only P (modify_self f).
Proof. intros w. exists []. cbn. now rewrite app_nil_r. Qed.

Lemma emits_check (P : event -> bool) (r : option exn) :
  emits_only P (check r).
Proof. destruct r; [apply emits_raise|apply emits_ret]. Qed.

Lemma emits_log (P : event -> bool) (message : str) :
  P (EvLog message) = true -> emits_only P (log message).
Proof.
  intros H w. unfold log, bind, get_self.
  destruct (debug (self w)).
  - exists [EvLog message]. cbn. now rewrite H.
  - exists []. cbn. now rewrite app_nil_r.
Qed.

Lemma emits_getitem (P : event -> bool) (K V : Type) (keq : K -> K -> bool)
    (d : Dict.t K V) (k : K) : emits_only P (getitem keq d k).
Proof.
  unfold getitem. destruct (Dict.get keq d k);
    [apply emits_ret|apply emits_raise].
Qed.

Lemma emits_call_method (P : event -> bool) (ev : str -> event)
    (m : option (str -> result unit)) (path : str) :
  P (ev path) = true -> emits_only P (call_method ev m path).
Proof.
  intros H. destruct m; cbn [call_method]; [|apply emits_raise].
  apply emits_bind; [now apply emits_emit|intro; apply emits_lift].
Qed.

Create HintDb emits.
#[local] Hint Resolve emits_ret emits_raise emits_lift emits_get_self
  emits_modify_self emits_check emits_getitem : emits.

(** Goes through a method body built from the combinators, as [keeps]
    does. *)
Ltac emits :=
  repeat first
    [ progress auto with emits
    | apply emits_finally_return
    | apply emits_try_except_else; [| |intro]
    | apply emits_try_except
    | apply emits_for_each; intro
    | apply emits_log; reflexivity
    | apply emits_call_method; reflexivity
    | apply emits_emit; reflexivity
    | apply emits_bind; [|intro]
    | exact (emits_ret _ _)
    | match goal with
      | |- forall e h, _ = Some h -> emits_only _ h =>
          let H := fresh in
          intros ? ? H;
          repeat match type of H with
                 | (if ?c then _ else _) = _ => destruct c
                 end;
          first [discriminate H | injection H as <-]
      | |- emits_only _ (if ?c then _ else _) => destruct c
      | |- emits_only _ (match ?c with _ => _ end) => destruct c
      end ].

Lemma get_label_emits (ctx : Chrome) : emits_only of_get_label (get_label ctx).
Proof. unfold get_label. emits. Qed.

Lemma captcha_screenshot_emits (P : event -> bool) (os : OS) (ctx : Shooter)
    (name_screenshot : option str) :
  (forall p, P (EvMakedirs p) = true) ->
  (forall p, P (EvScreenshot p) = true) ->
  (forall p, P (EvSaveScreenshot p) = true) ->
  (forall m, P (EvLog m) = true) ->
  emits_only P (captcha_screenshot os ctx name_screenshot).
Proof.
  intros H1 H2 H3 H4. unfold captcha_screenshot.
  repeat first
    [ progress auto with emits
    | apply emits_finally_return
    | apply emits_try_except
    | apply emits_log; apply H4
    | apply emits_call_method; first [apply H2|apply H3]
    | apply emits_emit; apply H1
    | apply emits_bind; [|intro]
    | match goal with
      | |- forall e h, _ = Some h -> emits_only _ h =>
          let H := fresh in
          intros ? ? H;
          repeat match type of H with
                 | (if ?c then _ else _) = _ => destruct c
                 end;
          first [discriminate H | injection H as <-]
      end ].
Qed.

Lemma tactical_retreat_emits (os : OS) (ctx : Chrome) :
  emits_only of_tactical_retreat (tactical_retreat os ctx).
Proof.
  unfold tactical_retreat.
  pose proof (fun c n => @captcha_screenshot_emits of_tactical_retreat os c n
                (fun _ => eq_refl) (fun _ => eq_refl) (fun _ => eq_refl)
                (fun _ => eq_refl)).
  emits.
Qed.

Lemma download_images_emits (os : OS) :
  emits_only of_download_images (download_images os).
Proof. unfold download_images, _init_workspace. emits. Qed.

Lemma classify_and_click_emits (os : OS) (model : Model) (k : okey) :
  emits_only of_challenge (classify_and_click os model k).
Proof. unfold classify_and_click. emits. Qed.

Lemma submit_answer_emits (P : event -> bool) (ctx : Chrome) (model : Model) :
  (forall t x, P (EvWait t x) = true) ->
  P EvSubmitClick = true ->
  (forall m, P (EvLog m) = true) ->
  emits_only P (submit_answer ctx model).
Proof.
  intros H1 H2 H3. unfold submit_answer.
  repeat first
    [ progress auto with emits
    | apply emits_try_except_else; [| |intro]
    | apply emits_log; apply H3
    | apply emits_emit; first [apply H1|apply H2]
    | apply emits_bind; [|intro]
    | match goal with
      | |- forall e h, _ = Some h -> emits_only _ h =>
          let H := fresh in
          intros ? ? H;
          repeat match type of H with
                 | (if ?c then _ else _) = _ => destruct c
                 end;
          first [discriminate H | injection H as <-]
      end ].
Qed.

Lemma challenge_emits (os : OS) (ctx : Chrome) (model : Model) :
  emits_only of_challenge (challenge os ctx model).
Proof.
  unfold challenge, image_classification.
  pose proof (classify_and_click_emits os model).
  pose proof (fun c n => @captcha_screenshot_emits of_challenge os c n
                (fun _ => eq_refl) (fun _ => eq_refl) (fun _ => eq_refl)
                (fun _ => eq_refl)).
  pose proof (@submit_answer_emits of_challenge ctx model
                (fun _ _ => eq_refl) eq_refl (fun _ => eq_refl)).
  emits.
Qed.

Lemma extract_url_trace (fuel : nat) (alias : okey) (sample : Sample) :
  forall attempt w r w',
    extract_url fuel attempt alias sample w = Some (r, w') ->
    exists tr, trace w' = trace w ++ tr /\ forallb of_mark_samples tr = true.
Proof.
  induction fuel as [|fuel IH]; intros attempt w r w'; [discriminate|].
  cbn [extract_url].
  assert (Hnext : forall w2,
            extract_url fuel (S attempt) alias sample
              (snd (emit (EvStyleRead (sample_id sample) attempt) w))
            = Some (r, w2) ->
            exists tr, trace w2 = trace w ++ tr
                       /\ forallb of_mark_samples tr = true).
  { intros w2 H. apply IH in H. destruct H as (tr & Ht & Hp).
    exists (EvStyleRead (sample_id sample) attempt :: tr).
    cbn in Ht. rewrite Ht, <- app_assoc. split; [reflexivity|exact Hp]. }
  destruct (style_read sample attempt) as [[image_style|]|e].
  - destruct (nth_error
                (re_split_class (in_class style_delimiters) image_style) 2).
    + intros [= <- <-]. eexists. split; [reflexivity|reflexivity].
    + apply Hnext.
  - intros [= <- <-]. eexists. split; [reflexivity|reflexivity].
  - destruct (isinstance e IndexError); [apply Hnext|].
    intros [= <- <-]. eexists. split; [reflexivity|reflexivity].
Qed.

Lemma mark_each_trace (fuel : nat) (samples : list Sample) :
  forall w r w',
    mark_each fuel samples w = Some (r, w') ->
    exists tr, trace w' = trace w ++ tr /\ forallb of_mark_samples tr = true.
Proof.
  induction samples as [|sample rest IH]; intros w r w'; cbn [mark_each].
  { intros [= <- <-]. exists []. now rewrite app_nil_r. }
  destruct (extract_url fuel 0 (aria_label sample) sample w)
    as [[[[]|e] w1]|] eqn:Hx; [| |discriminate].
  - destruct (extract_url_trace _ _ _ _ _ Hx) as (tr1 & Ht1 & Hp1).
    intros H. apply IH in H. destruct H as (tr2 & Ht2 & Hp2).
    cbn in Ht2. exists (tr1 ++ tr2).
    rewrite Ht2, Ht1, app_assoc, forallb_app, Hp1, Hp2. auto.
  - intros [= <- <-]. exact (extract_url_trace _ _ _ _ _ Hx).
Qed.

Lemma mark_each_frame (fuel : nat) (samples : list Sample) :
  forall w r w',
    mark_each fuel samples w = Some (r, w') ->
    alias2path (self w') = alias2path (self w)
    /\ alias2answer (self w') = alias2answer (self w)
    /\ label (self w') = label (self w)
    /\ label_alias (self w') = label_alias (self w).
Proof.
  induction samples as [|sample rest IH]; intros w r w'; cbn [mark_each].
  { intros [= <- <-]. auto. }
  destruct (extract_url fuel 0 (aria_label sample) sample w)
    as [[[[]|e] w1]|] eqn:Hx; [| |discriminate].
  - destruct (extract_url_effect _ _ _ _ _ Hx)
      as [(_ & url & Hs)|((e & He) & _)]; [|discriminate].
    intros H. apply IH in H. unfold modify_self in H.
    cbn [snd self] in H. rewrite Hs in H. exact H.
  - destruct (extract_url_effect _ _ _ _ _ Hx)
      as [(He & _)|(_ & Hs)]; [discriminate|].
    intros [= <- <-]. now rewrite Hs.
Qed.

Section Preserves.
Variable X : Type.
Variable f : ArmorCaptcha -> X.
Variables A B : Type.

Lemma preserves_of_keeps (m : M A) : keeps_self m -> preserves f m.
Proof. intros H w. now rewrite H. Qed.

Lemma preserves_bind (m : M A) (k : A -> M B) :
  preserves f m -> (forall a, preserves f (k a)) -> preserves f (bind m k).
Proof.
  intros Hm Hk w. unfold bind. specialize (Hm w).
  destruct (m w) as [[a|e] w1]; cbn in *; [|assumption].
  now rewrite Hk.
Qed.

Lemma preserves_try_except (body : M A) (handler : exn -> option (M A)) :
  preserves f body ->
  (forall e h, handler e = Some h -> preserves f h) ->
  preserves f (try_except body handler).
Proof.
  intros Hb Hh w. unfold try_except. specialize (Hb w).
  destruct (body w) as [[a|e] w1]; cbn in *; [assumption|].
  destruct (handler e) as [h|] eqn:He; [|assumption].
  now rewrite (Hh e h He).
Qed.

Lemma preserves_try_except_else (body : M A)
    (handler : exn -> option (M B)) (els : A -> M B) :
  preserves f body ->
  (forall e h, handler e = Some h -> preserves f h) ->
  (forall a, preserves f (els a)) ->
  preserves f (try_except_else body handler els).
Proof.
  intros Hb Hh He w. unfold try_except_else. specialize (Hb w).
  destruct (body w) as [[a|e] w1]; cbn in *.
  - now rewrite He.
  - destruct (handler e) as [h|] eqn:Hhe; [|assumption].
    now rewrite (Hh e h Hhe).
Qed.

Lemma preserves_finally_return (body : M A) (fin : M B) :
  preserves f body -> preserves f fin ->
  preserves f (finally_return body fin).
Proof. intros Hb Hf w. unfold finally_return. now rewrite Hf, Hb. Qed.
End Preserves.

Lemma preserves_modify_self (X : Type) (f : ArmorCaptcha -> X)
    (g : ArmorCaptcha -> ArmorCaptcha) :
  (forall s, f (g s) = f s) -> preserves f (modify_self g).
Proof. intros H w. cbn. apply H. Qed.

(** As [keeps], for a part of the instance; assignments to other fields
    are let through. *)
Ltac preserves :=
  repeat first
    [ apply preserves_of_keeps; solve [keeps]
    | apply preserves_modify_self; intro; reflexivity
    | apply preserves_finally_return
    | apply preserves_try_except_else; [| |intro]
    | apply preserves_try_except
    | apply preserves_bind; [|intro]
    | match goal with
      | |- forall e h, _ = Some h -> preserves _ h =>
          let H := fresh in
          intros ? ? H;
          repeat match type of H with
                 | (if ?c then _ else _) = _ => destruct c
                 end;
          first [discriminate H | injection H as <-]
      | |- preserves _ (if ?c then _ else _) => destruct c
      | |- preserves _ (match ?c with _ => _ end) => destruct c
      end ].

Lemma get_label_preserves_results (ctx : Chrome) :
  preserves results_of (get_label ctx).
Proof. unfold get_label. preserves. Qed.

Lemma tactical_retreat_preserves_results (os : OS) (ctx : Chrome) :
  preserves results_of (tactical_retreat os ctx).
Proof.
  unfold tactical_retreat. pose proof captcha_screenshot_keeps. preserves.
Qed.

(** X11: no method fills [alias2path] or [alias2answer].  [get_label],
    [mark_samples], [tactical_retreat], [download_images] and [challenge]
    all leave both registries as they found them, whatever they return
    or raise. *)
Theorem alias2path_is_never_written :
  (forall ctx w,
     alias2path (self (snd (get_label ctx w))) = alias2path (self w)
     /\ alias2answer (self (snd (get_label ctx w))) = alias2answer (self w))
  /\ (forall fuel ctx w r w',
        mark_samples fuel ctx w = Some (r, w') ->
        alias2path (self w') = alias2path (self w)
        /\ alias2answer (self w') = alias2answer (self w))
  /\ (forall os ctx w,
        alias2path (self (snd (tactical_retreat os ctx w)))
          = alias2path (self w)
        /\ alias2answer (self (snd (tactical_retreat os ctx w)))
           = alias2answer (self w))
  /\ (forall os w,
        alias2path (self (snd (download_images os w))) = alias2path (self w)
        /\ alias2answer (self (snd (download_images os w)))
           = alias2answer (self w))
  /\ (forall os ctx model w,
        alias2path (self (snd (challenge os ctx model w)))
          = alias2path (self w)
        /\ alias2answer (self (snd (challenge os ctx model w)))
           = alias2answer (self w)).
Proof.
  refine (conj _ (conj _ (conj _ (conj _ _)))).
  - intros ctx w.
    pose proof (get_label_preserves_results ctx w) as H.
    unfold results_of in H. injection H as H1 H2. auto.
  - intros fuel ctx w r w' H.
    destruct (mark_samples_cases _ _ _ H)
      as [(Hs & _)|(samples & w1 & _ & Hs & Hm)].
    + now rewrite Hs.
    + apply mark_each_frame in Hm. rewrite Hs in Hm. tauto.
  - intros os ctx w.
    pose proof (tactical_retreat_preserves_results os ctx w) as H.
    unfold results_of in H. injection H as H1 H2. auto.
  - intros os w. now rewrite download_images_keeps.
  - intros os ctx model w. now rewrite challenge_keeps.
Qed.

(** A call of [mark_samples] on a page with two rendered tiles. *)
Lemma alias2path_is_never_written_witness :
  exists w',
    mark_samples 1
      (Scenario.page_with_tiles
         [Scenario.tile 1 (Ok tt); Scenario.tile 2 (Ok tt)] (Ok tt))
      Scenario.world0 = Some (Ok tt, w')
    /\ alias2path (self w') = [].
Proof.
  eexists. split; [vm_compute; reflexivity|].
  exact (proj1 (proj1 (proj2 alias2path_is_never_written)
                  1 (Scenario.page_with_tiles
                       [Scenario.tile 1 (Ok tt); Scenario.tile 2 (Ok tt)]
                       (Ok tt))
                  Scenario.world0 (Ok tt) _ eq_refl)).
Defined.

(** X12: each method confines itself to its own kind of effects.
    [get_label] only waits and logs; [mark_samples] only waits, lists the
    tiles and reads their style; [tactical_retreat] only looks for the
    container, takes a screenshot, reads the address and logs;
    [download_images] only makes the workspace, fetches and writes files,
    without touching the browser; [challenge] never fetches anything. *)
Theorem methods_emit_only_their_events :
  (forall ctx, emits_only of_get_label (get_label ctx))
  /\ (forall fuel ctx w r w',
        mark_samples fuel ctx w = Some (r, w') ->
        exists tr, trace w' = trace w ++ tr
                   /\ forallb of_mark_samples tr = true)
  /\ (forall os ctx, emits_only of_tactical_retreat (tactical_retreat os ctx))
  /\ (forall os, emits_only of_download_images (download_images os))
  /\ (forall os ctx model, emits_only of_challenge (challenge os ctx model)).
Proof.
  refine (conj get_label_emits
            (conj _ (conj tactical_retreat_emits
                       (conj download_images_emits challenge_emits)))).
  intros fuel ctx w r w'.
  unfold mark_samples. unfold_monad. cbn.
  destruct (WebDriverWait_until 25 [ElementNotVisibleException]
              (presence_of_all_elements_located ctx xpath_task_image))
    as [found|e]; cbn.
  2: { intros [= <- <-]. eexists. split; [reflexivity|reflexivity]. }
  destruct (find_elements ctx xpath_task_image) as [samples|e]; cbn.
  2: { intros [= <- <-]. eexists.
       split; [rewrite <- app_assoc; reflexivity|reflexivity]. }
  intros H. apply mark_each_trace in H. destruct H as (tr & Ht & Hp).
  cbn in Ht. rewrite <- !app_assoc in Ht. eexists. split; [exact Ht|].
  cbn. exact Hp.
Qed.

(** A call of [mark_samples] on a page whose only tile is rendered at the
    third read. *)
Lemma methods_emit_only_their_events_witness :
  exists w' tr,
    mark_samples 3 (Scenario.page_with_tiles [Scenario.slow_tile] (Ok tt))
      Scenario.world0 = Some (Ok tt, w')
    /\ trace w' = trace Scenario.world0 ++ tr
    /\ forallb of_mark_samples tr = true.
Proof.
  eexists.
  assert (H : mark_samples 3
                (Scenario.page_with_tiles [Scenario.slow_tile] (Ok tt))
                Scenario.world0 = Some (Ok tt, _))
    by (vm_compute; reflexivity).
  destruct (proj1 (proj2 methods_emit_only_their_events) _ _ _ _ _ H)
    as (tr & Ht & Hp).
  exists tr. split; [exact H|]. split; [exact Ht|exact Hp].
Defined.

(* ===================================================================== *)
(** ** Further properties: [download_images] *)
(* ===================================================================== *)

Arguments workspace_path : simpl never.
Arguments download_one : simpl never.

Lemma download_images_unfold (os : OS) (w : World) :
  download_images os w =
    bind (_init_workspace os)
         (fun ws => bind get_self
                      (fun s => for_each (alias2url s) (download_one os ws)))
         w.
Proof. reflexivity. Qed.

Lemma _init_workspace_unfold (os : OS) (w : World) :
  _init_workspace os w =
    bind (if negb (path_exists os (workspace_path os (self w)))
          then bind (emit (EvMkdir (workspace_path os (self w))))
                    (fun _ => check (mkdir os (workspace_path os (self w))))
          else ret tt)
         (fun _ => ret (workspace_path os (self w))) w.
Proof. reflexivity. Qed.

Lemma _init_workspace_ok (os : OS) (w : World) :
  path_exists os (workspace_path os (self w)) = true
  \/ mkdir os (workspace_path os (self w)) = None ->
  exists tr,
    _init_workspace os w
    = (Ok (workspace_path os (self w)),
       {| self := self w; trace := trace w ++ tr |})
    /\ fetched_urls tr = [] /\ written_files tr = [].
Proof.
  intros H. rewrite _init_workspace_unfold.
  destruct (path_exists os (workspace_path os (self w))) eqn:E.
  - exists []. rewrite app_nil_r. destruct w; auto.
  - destruct H as [H|H]; [discriminate|]. rewrite H.
    eexists. split; [reflexivity|]. auto.
Qed.

Lemma download_one_ok (os : OS) (ws : str) (item : okey * str) (w : World) :
  downloadable os ws item ->
  exists data,
    download_one os ws item w
    = (Ok tt,
       {| self := self w;
          trace := trace w
                   ++ [EvFetch (snd item);
                       EvWriteFile
                         (PosixPath.join ws (okey_str (fst item) ++ py ".png"))
                         data] |}).
Proof.
  intros (data & Hget & Hwrite). exists data.
  unfold download_one. unfold_monad. cbn.
  rewrite Hget. cbn. rewrite Hwrite. cbn. now rewrite <- app_assoc.
Qed.

(** The loop over entries that can all be downloaded, followed by any
    further entries. *)
Lemma download_loop (os : OS) (ws : str) (pre rest : list (okey * str)) :
  forall w,
    (forall item, In item pre -> downloadable os ws item) ->
    exists tr,
      for_each (pre ++ rest) (download_one os ws) w
      = for_each rest (download_one os ws)
          {| self := self w; trace := trace w ++ tr |}
      /\ fetched_urls tr = map snd pre
      /\ map fst (written_files tr)
         = map (fun item =>
                  PosixPath.join ws (okey_str (fst item) ++ py ".png")) pre.
Proof.
  induction pre as [|item pre IH]; intros w Hall.
  { exists []. rewrite app_nil_r. destruct w; auto. }
  destruct (@download_one_ok os ws item w (Hall item (or_introl eq_refl)))
    as (data & Hone).
  cbn [app for_each]. unfold bind at 1. rewrite Hone.
  destruct (IH {| self := self w;
                  trace := trace w
                           ++ [EvFetch (snd item);
                               EvWriteFile
                                 (PosixPath.join ws
                                    (okey_str (fst item) ++ py ".png"))
                                 data] |})
    as (tr & Hloop & Hf & Hw).
  { intros i Hi. apply Hall. now right. }
  eexists. split.
  { rewrite Hloop. cbn [self trace]. rewrite <- app_assoc. reflexivity. }
  unfold fetched_urls, written_files in *.
  rewrite !flat_map_app. cbn [flat_map app map fst snd].
  rewrite Hf, Hw. auto.
Qed.

(** X13: when the workspace exists or can be made and every image can be
    fetched and written, [download_images] returns, having fetched every
    URL of [alias2url] once, in the order of the registry, and written
    each image to the file named after the tile's alias inside the
    workspace. *)
Theorem download_images_fetches_every_url (os : OS) (w : World) :
  path_exists os (workspace_path os (self w)) = true
  \/ mkdir os (workspace_path os (self w)) = None ->
  (forall item, In item (alias2url (self w)) ->
                downloadable os (workspace_path os (self w)) item) ->
  fst (download_images os w) = Ok tt
  /\ exists tr,
       trace (snd (download_images os w)) = trace w ++ tr
       /\ fetched_urls tr = map snd (alias2url (self w))
       /\ map fst (written_files tr)
          = map (fun item => challenge_img_path os (self w) (fst item))
                (alias2url (self w)).
Proof.
  intros Hws Hall.
  destruct (_init_workspace_ok os w Hws) as (tr0 & Hinit & Hf0 & Hw0).
  destruct (@download_loop os (workspace_path os (self w))
              (alias2url (self w)) []
              {| self := self w; trace := trace w ++ tr0 |} Hall)
    as (tr & Hloop & Hf & Hw).
  rewrite app_nil_r in Hloop. cbn [for_each ret self trace] in Hloop.
  assert (Hrun : download_images os w
                 = (Ok tt, {| self := self w;
                              trace := (trace w ++ tr0) ++ tr |})).
  { rewrite download_images_unfold. unfold bind at 1. rewrite Hinit.
    unfold bind at 1, get_self at 1. cbn [self]. exact Hloop. }
  rewrite Hrun. cbn [fst snd trace].
  split; [reflexivity|].
  exists (tr0 ++ tr). rewrite app_assoc. split; [reflexivity|].
  unfold fetched_urls, written_files in *.
  rewrite !flat_map_app, Hf0, Hw0, Hf. cbn [app].
  split; [reflexivity|exact Hw].
Qed.

(** One tile, on a machine whose network and file system work. *)
Lemma download_images_fetches_every_url_witness :
  fst (download_images Scenario.good_os Scenario.world_in_round) = Ok tt.
Proof.
  refine (proj1 (@download_images_fetches_every_url
                   Scenario.good_os Scenario.world_in_round _ _)).
  - right. reflexivity.
  - intros item _. exists []. split; reflexivity.
Defined.

(** X14: a fetch that fails stops [download_images].  When the images
    before an entry can be downloaded and fetching that entry's URL raises,
    the exception leaves [download_images]; the URLs fetched are those up to
    and including the failing one, the files written are those before it,
    and no later URL is fetched. *)
Theorem download_images_stops_at_failed_fetch (os : OS) (w : World)
    (pre post : list (okey * str)) (k : okey) (u : str) (e : exn) :
  path_exists os (workspace_path os (self w)) = true
  \/ mkdir os (workspace_path os (self w)) = None ->
  alias2url (self w) = pre ++ (k, u) :: post ->
  (forall item, In item pre ->
                downloadable os (workspace_path os (self w)) item) ->
  http_get os u = Raise e ->
  fst (download_images os w) = Raise e
  /\ exists tr,
       trace (snd (download_images os w)) = trace w ++ tr
       /\ fetched_urls tr = map snd pre ++ [u]
       /\ map fst (written_files tr)
          = map (fun item => challenge_img_path os (self w) (fst item)) pre.
Proof.
  intros Hws Hsplit Hall Hfail.
  destruct (_init_workspace_ok os w Hws) as (tr0 & Hinit & Hf0 & Hw0).
  destruct (@download_loop os (workspace_path os (self w)) pre
              ((k, u) :: post)
              {| self := self w; trace := trace w ++ tr0 |} Hall)
    as (tr & Hloop & Hf & Hw).
  cbn [self trace] in Hloop.
  assert (Hrun : download_images os w
                 = (Raise e,
                    {| self := self w;
                       trace := ((trace w ++ tr0) ++ tr) ++ [EvFetch u] |})).
  { rewrite download_images_unfold. unfold bind at 1. rewrite Hinit.
    unfold bind at 1, get_self at 1. cbn [self]. rewrite Hsplit, Hloop.
    cbn [for_each]. unfold bind at 1.
    unfold download_one at 1. unfold_monad. cbn. rewrite Hfail. reflexivity. }
  rewrite Hrun. cbn [fst snd trace].
  split; [reflexivity|].
  exists (tr0 ++ tr ++ [EvFetch u]). rewrite <- !app_assoc.
  split; [reflexivity|].
  unfold fetched_urls, written_files in *.
  rewrite !flat_map_app, Hf0, Hw0, Hf. cbn [app flat_map].
  rewrite app_nil_r, Hw. auto.
Qed.

(** Three tiles; the server refuses the image of the second one. *)
Lemma download_images_stops_at_failed_fetch_witness :
  fst (download_images (os_refusing (Scenario.image_style 2))
         Scenario.world_in_round)
  = Raise RequestException.
Proof.
  refine (proj1 (@download_images_stops_at_failed_fetch
                   (os_refusing (Scenario.image_style 2))
                   Scenario.world_in_round
                   [(Some (py "Challenge Image 1"), Scenario.image_style 1)]
                   [(Some (py "Challenge Image 3"), Scenario.image_style 3)]
                   (Some (py "Challenge Image 2")) (Scenario.image_style 2)
                   RequestException _ eq_refl _ eq_refl)).
  - left. reflexivity.
  - intros item [<-|[]]. exists []. split; reflexivity.
Defined.

(* ===================================================================== *)
(** ** Further properties: [challenge] on labels and registries it cannot
       use *)
(* ===================================================================== *)

Lemma bind_ok_eq (A B : Type) (m : M A) (k : A -> M B) (w w1 : World)
    (a : A) (r : result B * World) :
  m w = (Ok a, w1) -> k a w1 = r -> bind m k w = r.
Proof. intros Hm Hk. unfold bind. now rewrite Hm. Qed.

Lemma bind_raise_eq (A B : Type) (m : M A) (k : A -> M B) (w w1 : World)
    (e : exn) :
  m w = (Raise e, w1) -> bind m k w = (Raise e, w1).
Proof. intros Hm. unfold bind. now rewrite Hm. Qed.

Lemma log_run (message : str) (w : World) :
  log message w
  = (Ok tt, {| self := self w;
               trace := trace w
                        ++ (if debug (self w) then [EvLog message]
                            else []) |}).
Proof.
  unfold log, bind, get_self, emit, ret.
  destruct (debug (self w)); [reflexivity|].
  rewrite app_nil_r. now destruct w.
Qed.

Lemma classify_and_click_no_alias (os : OS) (model : Model) (k : okey)
    (w : World) (path : str) :
  Dict.get PyStr.eqb (label_alias (self w)) (label (self w)) = None ->
  Dict.get okey_eqb (alias2path (self w)) k = Some path ->
  classify_and_click os model k w
  = (Raise match read_file os path with
           | Ok _ => KeyError
           | Raise e => e
           end,
     {| self := self w; trace := trace w ++ [EvReadFile path] |}).
Proof.
  intros Hnone Hp. unfold classify_and_click. unfold_monad. cbn.
  rewrite Hp. cbn. destruct (read_file os path); cbn; [|reflexivity].
  rewrite Hnone. reflexivity.
Qed.

(** X15: [challenge] on a label that has no alias raises before anything is
    classified, clicked, captured or submitted.  With no local image
    registered it raises [KeyError] at once; otherwise it reads the first
    image and then raises [KeyError], or the error of that read. *)
Theorem challenge_without_alias (os : OS) (ctx : Chrome) (model : Model)
    (w : World) :
  Dict.get PyStr.eqb (label_alias (self w)) (label (self w)) = None ->
  fst (challenge os ctx model w)
    = Raise match alias2path (self w) with
            | [] => KeyError
            | (_, path) :: _ =>
                match read_file os path with
                | Ok _ => KeyError
                | Raise e => e
                end
            end
  /\ self (snd (challenge os ctx model w)) = self w
  /\ trace (snd (challenge os ctx model w))
     = trace w
       ++ (if debug (self w) then [EvLog (py "开始挑战")] else [])
       ++ match alias2path (self w) with
          | [] => []
          | (_, path) :: _ => [EvReadFile path]
          end.
Proof.
  intros Hnone.
  assert (Hrun : exists w',
             challenge os ctx model w
             = (Raise match alias2path (self w) with
                      | [] => KeyError
                      | (_, path) :: _ =>
                          match read_file os path with
                          | Ok _ => KeyError
                          | Raise e => e
                          end
                      end, w')
             /\ trace w'
                = trace w
                  ++ (if debug (self w) then [EvLog (py "开始挑战")] else [])
                  ++ match alias2path (self w) with
                     | [] => []
                     | (_, path) :: _ => [EvReadFile path]
                     end).
  { unfold challenge, image_classification.
    destruct (alias2path (self w)) as [|[k path] rest] eqn:Hap.
    - eexists. split.
      + apply bind_raise_eq.
        eapply bind_ok_eq; [apply log_run|].
        eapply bind_ok_eq; [reflexivity|]. cbn [self]. rewrite Hap.
        eapply bind_ok_eq; [reflexivity|].
        apply bind_raise_eq. unfold getitem. rewrite Hnone. reflexivity.
      + cbn [trace]. now rewrite app_nil_r.
    - eexists. split.
      + apply bind_raise_eq.
        eapply bind_ok_eq; [apply log_run|].
        eapply bind_ok_eq; [reflexivity|]. cbn [self]. rewrite Hap.
        apply bind_raise_eq. cbn [Dict.keys map fst for_each].
        apply bind_raise_eq.
        apply classify_and_click_no_alias; [exact Hnone|].
        cbn [self]. rewrite Hap. cbn [Dict.get].
        now rewrite (proj2 (okey_eqb_eq k k) eq_refl).
      + cbn [trace self]. now rewrite <- app_assoc. }
  destruct Hrun as (w' & Hrun & Htr).
  split; [now rewrite Hrun|]. split; [apply challenge_keeps|].
  now rewrite Hrun.
Qed.

(** A label that the alias table does not know, with no image
    registered. *)
Lemma challenge_without_alias_witness :
  fst (challenge Scenario.good_os Scenario.blank_page
         (Scenario.yes_model "yolo") (Scenario.world_with_label (py "未知")))
  = Raise KeyError.
Proof.
  exact (proj1 (@challenge_without_alias Scenario.good_os
                  Scenario.blank_page (Scenario.yes_model "yolo")
                  (Scenario.world_with_label (py "未知")) eq_refl)).
Defined.

(** X16: on an instance whose [alias2path] is empty, which by the
    properties above is every instance the methods themselves produce,
    [challenge] reads no image, classifies nothing and clicks no tile:
    whatever it does is logging, the screenshot and the submission. *)
Theorem challenge_with_no_local_image (os : OS) (ctx : Chrome)
    (model : Model) (w : World) :
  alias2path (self w) = [] ->
  exists tr,
    trace (snd (challenge os ctx model w)) = trace w ++ tr
    /\ forallb (fun ev => negb (is_tile_work ev)) tr = true.
Proof.
  intros Hempty.
  set (P := fun ev => negb (is_tile_work ev)).
  set (tail_ :=
         bind (bind (getitem PyStr.eqb (label_alias (self w)) (label (self w)))
                 (fun label_ =>
                    bind (captcha_screenshot os (chrome_shooter ctx)
                            (Some (of_int (now os) ++ py "." ++ flag model
                                     ++ py "." ++ label_ ++ py ".png")))
                         (fun _ => ret tt)))
              (fun _ => submit_answer ctx model)).
  assert (Htail : emits_only P tail_).
  { unfold tail_.
    pose proof (fun c n => @captcha_screenshot_emits P os c n
                  (fun _ => eq_refl) (fun _ => eq_refl) (fun _ => eq_refl)
                  (fun _ => eq_refl)).
    pose proof (@submit_answer_emits P ctx model
                  (fun _ _ => eq_refl) eq_refl (fun _ => eq_refl)).
    repeat first [ progress auto with emits
                 | apply emits_bind; [|intro] ]. }
  assert (Hrun : challenge os ctx model w
                 = tail_ {| self := self w;
                            trace := trace w
                                     ++ (if debug (self w)
                                         then [EvLog (py "开始挑战")]
                                         else []) |}).
  { unfold challenge, image_classification, tail_.
    unfold bind at 1. unfold bind at 1. rewrite log_run.
    unfold bind at 1, get_self at 1. cbn [self]. rewrite Hempty.
    cbn [Dict.keys map for_each]. unfold bind at 1, ret at 1.
    reflexivity. }
  rewrite Hrun.
  destruct (Htail {| self := self w;
                     trace := trace w
                              ++ (if debug (self w)
                                  then [EvLog (py "开始挑战")]
                                  else []) |}) as (tr & Ht & Hp).
  cbn [trace] in Ht. rewrite Ht, <- app_assoc.
  eexists. split; [reflexivity|].
  rewrite forallb_app, Hp. destruct (debug (self w)); reflexivity.
Qed.

(** An instance with a known label and no local image, on a page whose
    submit control works. *)
Lemma challenge_with_no_local_image_witness :
  exists tr,
    trace (snd (challenge Scenario.good_os
                  (Scenario.page_with_tiles [Scenario.tile 1 (Ok tt)] (Ok tt))
                  (Scenario.yes_model "resnet")
                  (Scenario.world_with_label (py "自行车"))))
    = trace (Scenario.world_with_label (py "自行车")) ++ tr
    /\ forallb (fun ev => negb (is_tile_work ev)) tr = true.
Proof.
  exact (@challenge_with_no_local_image Scenario.good_os
           (Scenario.page_with_tiles [Scenario.tile 1 (Ok tt)] (Ok tt))
           (Scenario.yes_model "resnet")
           (Scenario.world_with_label (py "自行车")) eq_refl).
Defined.

(* ===================================================================== *)
(** ** Further properties: [anti_checkbox] *)
(* ===================================================================== *)

Lemma checkbox_pass_events (debug_ : bool) (page : CheckboxPage) (n : nat) :
  List.length (filter is_wait_frame (fst (checkbox_pass debug_ page n))) = 1
  /\ List.length (filter is_default_content
                    (fst (checkbox_pass debug_ page n))) = 1
  /\ last (fst (checkbox_pass debug_ page n)) CbDefaultContent
     = CbDefaultContent
  /\ (snd (checkbox_pass debug_ page n) = PassReturn true ->
      In CbClick (fst (checkbox_pass debug_ page n))).
Proof.
  unfold checkbox_pass, checkbox_try.
  destruct (WebDriverWait_until 2 [ElementNotVisibleException]
              (frame_to_be_available page n)) as [[]|e];
    [destruct (WebDriverWait_until 2 [] (checkbox_to_be_clickable page n))
       as [box|e];
     [destruct (el_click box) as [[]|e]; [destruct debug_|]|]|];
    cbn [fst snd app filter is_wait_frame is_default_content List.length last
         In];
    (split; [reflexivity|split; [reflexivity|split; [reflexivity|]]]);
    auto;
    destruct (switch_to_default_content page n); try discriminate;
    try (destruct (isinstance e ElementClickInterceptedException);
         [discriminate|
          destruct (isinstance e TimeoutException); discriminate]);
    auto.
Qed.

Lemma last_app_nonempty (A : Type) (l l' : list A) (d : A) :
  l' <> [] -> last (l ++ l') d = last l' d.
Proof.
  intros Hne. induction l as [|x l IH]; [reflexivity|].
  cbn [app last]. rewrite IH.
  destruct (l ++ l') eqn:E; [|reflexivity].
  apply app_eq_nil in E. tauto.
Qed.

Lemma anti_checkbox_from_events (debug_ : bool) (page : CheckboxPage)
    (passes : nat) :
  forall n,
    List.length (filter is_wait_frame
                   (fst (anti_checkbox_from debug_ page passes n)))
    = List.length (filter is_default_content
                     (fst (anti_checkbox_from debug_ page passes n)))
    /\ List.length (filter is_default_content
                      (fst (anti_checkbox_from debug_ page passes n)))
       <= passes
    /\ (fst (anti_checkbox_from debug_ page passes n) = []
        \/ last (fst (anti_checkbox_from debug_ page passes n))
                CbDefaultContent = CbDefaultContent)
    /\ (0 < passes -> fst (anti_checkbox_from debug_ page passes n) <> [])
    /\ (snd (anti_checkbox_from debug_ page passes n) = Ok (Some true) ->
        In CbClick (fst (anti_checkbox_from debug_ page passes n))).
Proof.
  induction passes as [|p IH]; intros n; cbn [anti_checkbox_from].
  { cbn. repeat split; try lia; try discriminate. now left. }
  destruct (checkbox_pass_events debug_ page n) as (Hw & Hd & Hl & Hc).
  assert (Hne : fst (checkbox_pass debug_ page n) <> []).
  { intros E. rewrite E in Hw. discriminate. }
  destruct (checkbox_pass debug_ page n) as [evs [b| |e]];
    cbn [fst snd] in *.
  - rewrite Hw, Hd. repeat split; auto; try lia.
    intros [= ->]. auto.
  - destruct (IH (S n)) as (Hw2 & Hd2 & Hl2 & _ & Hc2).
    destruct (anti_checkbox_from debug_ page p (S n)) as [evs' r].
    cbn [fst snd] in *.
    rewrite !filter_app, !length_app, Hw, Hd, Hw2.
    split; [reflexivity|]. split; [lia|]. split; [|split].
    + right. destruct Hl2 as [->|Hlast]; [now rewrite app_nil_r|].
      destruct evs' as [|ev evs'']; [now rewrite app_nil_r|].
      rewrite last_app_nonempty; [exact Hlast|discriminate].
    + intros _ E. apply app_eq_nil in E. tauto.
    + intros Hr. apply in_or_app. right. auto.
  - rewrite Hw, Hd. repeat split; auto; try lia. discriminate.
Qed.

(** X17: the discipline of [anti_checkbox].  It makes at most eight
    passes; every pass it starts ends with switching back to the main
    document, which is the last thing it does; and it returns [True] only
    after having clicked the checkbox. *)
Theorem anti_checkbox_discipline (s : ArmorCaptcha) (page : CheckboxPage) :
  List.length (filter is_wait_frame (fst (anti_checkbox s page)))
  = List.length (filter is_default_content (fst (anti_checkbox s page)))
  /\ List.length (filter is_default_content (fst (anti_checkbox s page))) <= 8
  /\ last (fst (anti_checkbox s page)) CbDefaultContent = CbDefaultContent
  /\ fst (anti_checkbox s page) <> []
  /\ (snd (anti_checkbox s page) = Ok (Some true) ->
      In CbClick (fst (anti_checkbox s page))).
Proof.
  unfold anti_checkbox.
  destruct (anti_checkbox_from_events (debug s) page 8 0)
    as (H1 & H2 & H3 & H4 & H5).
  specialize (H4 ltac:(lia)).
  destruct H3 as [H3|H3]; [contradiction|]. auto.
Qed.

(** A checkbox that is there at once and takes the click. *)
Lemma anti_checkbox_discipline_witness :
  In CbClick (fst (anti_checkbox Scenario.armor
                     (checkbox_page_after 0 (Ok tt)))).
Proof.
  exact (proj2 (proj2 (proj2 (proj2
           (anti_checkbox_discipline Scenario.armor
              (checkbox_page_after 0 (Ok tt)))))) eq_refl).
Defined.

Lemma anti_checkbox_from_result (debug_ : bool) (page : CheckboxPage)
    (passes : nat) :
  forall n,
    match snd (anti_checkbox_from debug_ page passes n) with
    | Ok None =>
        forall i, i < passes ->
                  snd (checkbox_pass debug_ page (n + i)) = PassNext
    | Ok (Some b) =>
        exists k, k < passes
                  /\ (forall i, i < k ->
                        snd (checkbox_pass debug_ page (n + i)) = PassNext)
                  /\ snd (checkbox_pass debug_ page (n + k)) = PassReturn b
                  /\ List.length
                       (filter is_default_content
                          (fst (anti_checkbox_from debug_ page passes n)))
                     = S k
    | Raise e =>
        exists k, k < passes
                  /\ (forall i, i < k ->
                        snd (checkbox_pass debug_ page (n + i)) = PassNext)
                  /\ snd (checkbox_pass debug_ page (n + k)) = PassRaise e
    end.
Proof.
  induction passes as [|p IH]; intros n; cbn [anti_checkbox_from].
  { cbn. intros i Hi. lia. }
  destruct (checkbox_pass_events debug_ page n) as (_ & Hd & _).
  destruct (checkbox_pass debug_ page n) as [evs [b| |e]] eqn:Hpass;
    cbn [fst snd] in *.
  - exists 0. rewrite Nat.add_0_r, Hpass. cbn [snd].
    repeat split; [lia|intros i Hi; lia|exact Hd].
  - specialize (IH (S n)).
    destruct (anti_checkbox_from debug_ page p (S n)) as [evs' r].
    cbn [fst snd] in *.
    assert (Hshift : forall i, S n + i = n + S i) by (intros; lia).
    destruct r as [[b|]|e].
    + destruct IH as (k & Hk & Hbefore & Hat & Hlen).
      exists (S k). split; [lia|]. split; [|split].
      * intros [|i] Hi; [now rewrite Nat.add_0_r, Hpass|].
        rewrite <- Hshift. apply Hbefore. lia.
      * now rewrite <- Hshift.
      * rewrite filter_app, length_app, Hd, Hlen. reflexivity.
    + intros [|i] Hi; [now rewrite Nat.add_0_r, Hpass|].
      rewrite <- Hshift. apply IH. lia.
    + destruct IH as (k & Hk & Hbefore & Hat).
      exists (S k). split; [lia|]. split.
      * intros [|i] Hi; [now rewrite Nat.add_0_r, Hpass|].
        rewrite <- Hshift. apply Hbefore. lia.
      * now rewrite <- Hshift.
  - exists 0. rewrite Nat.add_0_r, Hpass. cbn [snd].
    repeat split; [lia|intros i Hi; lia].
Qed.

(** A pass in which the frame does not show in time ends in a timeout,
    whether the condition of the wait stayed false, held too late, or kept
    raising an exception that the wait ignores. *)
Lemma checkbox_pass_timeout (debug_ : bool) (page : CheckboxPage) (n : nat) :
  match frame_to_be_available page n with
  | Never => True
  | At t _ => (2 < t)%N
  | Broken e => isinstance e NoSuchElementException
                || isinstance e ElementNotVisibleException = true
  end ->
  switch_to_default_content page n = Ok tt ->
  checkbox_pass debug_ page n
  = ([CbWaitFrame 2; CbDefaultContent], PassNext).
Proof.
  intros Hframe Hback.
  unfold checkbox_pass, checkbox_try, WebDriverWait_until, ignored.
  destruct (frame_to_be_available page n) as [|t []|e];
    cbn [IGNORED_EXCEPTIONS app existsb].
  - rewrite Hback. reflexivity.
  - apply N.leb_gt in Hframe. rewrite Hframe, Hback. reflexivity.
  - rewrite orb_false_r, Hframe, Hback. reflexivity.
Qed.

(** X18: what [anti_checkbox] returns.  The first pass that does not end
    in a timeout decides: it returns [True] or [False] as that pass does,
    after exactly that many passes, or raises what that pass raises; it
    returns [None] only when all eight passes ended in a timeout.  A pass
    ends in a timeout, switching back to the main document working, when
    the frame does not show within 2 time units, also when looking for it
    keeps raising [NoSuchElementException] or
    [ElementNotVisibleException], which the wait ignores. *)
Theorem anti_checkbox_first_pass_decides (s : ArmorCaptcha)
    (page : CheckboxPage) :
  match snd (anti_checkbox s page) with
  | Ok None =>
      forall i, i < 8 -> snd (checkbox_pass (debug s) page i) = PassNext
  | Ok (Some b) =>
      exists k, k < 8
                /\ (forall i, i < k ->
                      snd (checkbox_pass (debug s) page i) = PassNext)
                /\ snd (checkbox_pass (debug s) page k) = PassReturn b
                /\ List.length
                     (filter is_default_content (fst (anti_checkbox s page)))
                   = S k
  | Raise e =>
      exists k, k < 8
                /\ (forall i, i < k ->
                      snd (checkbox_pass (debug s) page i) = PassNext)
                /\ snd (checkbox_pass (debug s) page k) = PassRaise e
  end
  /\ (forall i,
        match frame_to_be_available page i with
        | Never => True
        | At t _ => (2 < t)%N
        | Broken e => isinstance e NoSuchElementException
                      || isinstance e ElementNotVisibleException = true
        end ->
        switch_to_default_content page i = Ok tt ->
        snd (checkbox_pass (debug s) page i) = PassNext)
  /\ ((forall i, i < 8 ->
         (exists e, frame_to_be_available page i = Broken e
                    /\ (isinstance e NoSuchElementException
                        || isinstance e ElementNotVisibleException = true))
         /\ switch_to_default_content page i = Ok tt) ->
      snd (anti_checkbox s page) = Ok None).
Proof.
  assert (Hnext : forall i,
            match frame_to_be_available page i with
            | Never => True
            | At t _ => (2 < t)%N
            | Broken e => isinstance e NoSuchElementException
                          || isinstance e ElementNotVisibleException = true
            end ->
            switch_to_default_content page i = Ok tt ->
            snd (checkbox_pass (debug s) page i) = PassNext).
  { intros i Hframe Hback.
    now rewrite (checkbox_pass_timeout (debug s) page i Hframe Hback). }
  split; [exact (anti_checkbox_from_result (debug s) page 8 0)|].
  split; [exact Hnext|].
  intros Hall.
  assert (Hpass : forall i, i < 8 ->
            snd (checkbox_pass (debug s) page i) = PassNext).
  { intros i Hi. destruct (Hall i Hi) as ((e & He & Hign) & Hback).
    apply Hnext; [|exact Hback]. rewrite He. exact Hign. }
  pose proof (anti_checkbox_from_result (debug s) page 8 0) as Hres.
  unfold anti_checkbox.
  destruct (snd (anti_checkbox_from (debug s) page 8 0)) as [[b|]|e].
  - destruct Hres as (k & Hk & _ & Hat & _).
    cbn [Nat.add] in Hat. rewrite (Hpass k Hk) in Hat. discriminate.
  - reflexivity.
  - destruct Hres as (k & Hk & _ & Hat).
    cbn [Nat.add] in Hat. rewrite (Hpass k Hk) in Hat. discriminate.
Qed.

(** A page on which looking for the frame raises
    [ElementNotVisibleException] in every pass: eight timeouts, and
    [anti_checkbox] returns [None]. *)
Lemma anti_checkbox_first_pass_decides_witness :
  snd (anti_checkbox Scenario.armor
         {| frame_to_be_available := fun _ => Broken ElementNotVisibleException;
            checkbox_to_be_clickable := fun _ => Never;
            switch_to_default_content := fun _ => Ok tt |})
  = Ok None.
Proof.
  apply (proj2 (proj2 (anti_checkbox_first_pass_decides Scenario.armor _))).
  intros i _. split; [|reflexivity].
  exists ElementNotVisibleException. split; reflexivity.
Defined.

Lemma anti_checkbox_from_skip (debug_ : bool) (page : CheckboxPage)
    (k p : nat) :
  forall n,
    (forall i, i < k -> snd (checkbox_pass debug_ page (n + i)) = PassNext) ->
    snd (anti_checkbox_from debug_ page (k + p) n)
    = snd (anti_checkbox_from debug_ page p (n + k)).
Proof.
  induction k as [|k IH]; intros n Hnext.
  { now rewrite Nat.add_0_r. }
  cbn [Nat.add anti_checkbox_from].
  pose proof (Hnext 0 ltac:(lia)) as H0. rewrite Nat.add_0_r in H0.
  destruct (checkbox_pass debug_ page n) as [evs ending].
  cbn [snd] in H0. subst ending.
  specialize (IH (S n)).
  destruct (anti_checkbox_from debug_ page (k + p) (S n)) as [evs' r].
  cbn [snd] in *. rewrite IH.
  - f_equal. f_equal. lia.
  - intros i Hi. replace (S n + i) with (n + S i) by lia.
    apply Hnext. lia.
Qed.

(** X19: the click on the checkbox ends [anti_checkbox].  When the
    challenge frame does not show within 2 time units in the first [k]
    passes, with [k] below eight, and in the next pass the frame and the
    checkbox are there in time, then a click that works makes
    [anti_checkbox] return [True] and a click that is intercepted makes it
    return [False], without any further pass. *)
Theorem anti_checkbox_click_decides (s : ArmorCaptcha) (page : CheckboxPage)
    (k : nat) (box : Element) :
  k < 8 ->
  (forall i, i < k ->
     WebDriverWait_until 2 [ElementNotVisibleException]
       (frame_to_be_available page i)
     = Raise TimeoutException) ->
  (forall i, i <= k -> switch_to_default_content page i = Ok tt) ->
  WebDriverWait_until 2 [ElementNotVisibleException]
    (frame_to_be_available page k) = Ok tt ->
  WebDriverWait_until 2 [] (checkbox_to_be_clickable page k) = Ok box ->
  (el_click box = Ok tt ->
   snd (anti_checkbox s page) = Ok (Some true))
  /\ (el_click box = Raise ElementClickInterceptedException ->
      snd (anti_checkbox s page) = Ok (Some false)).
Proof.
  intros Hk Hframe Hback Hnow Hbox.
  assert (Hskip : snd (anti_checkbox s page)
                  = snd (anti_checkbox_from (debug s) page (8 - k) k)).
  { unfold anti_checkbox. replace 8 with (k + (8 - k)) at 1 by lia.
    rewrite anti_checkbox_from_skip; [reflexivity|].
    intros i Hi. cbn [Nat.add]. unfold checkbox_pass, checkbox_try.
    rewrite (Hframe i Hi), (Hback i ltac:(lia)). reflexivity. }
  rewrite Hskip. destruct (8 - k) as [|p] eqn:E; [lia|].
  cbn [anti_checkbox_from]. unfold checkbox_pass, checkbox_try.
  rewrite Hnow, Hbox, (Hback k (Nat.le_refl k)).
  split; intros ->; reflexivity.
Qed.

(** The frame shows in the third pass, where the click is intercepted. *)
Lemma anti_checkbox_click_decides_witness :
  snd (anti_checkbox Scenario.armor
         (checkbox_page_after 2 (Raise ElementClickInterceptedException)))
  = Ok (Some false).
Proof.
  refine (proj2 (@anti_checkbox_click_decides Scenario.armor
                   (checkbox_page_after
                      2 (Raise ElementClickInterceptedException))
                   2 _ _ _ _ eq_refl eq_refl) eq_refl).
  - lia.
  - intros [|[|i]] Hi; try reflexivity. lia.
  - intros i _. reflexivity.
Defined.
